(** * The parallel orchestrator of guccibot, embedded in Rocq

    Source: [src/agents/parallel-orchestrator.ts] (class [ParallelOrchestrator])
    and the message protocol of [src/agents/parallel-worker.ts].

    The orchestrator is a single-threaded JavaScript object.  Its state is
    changed by five kinds of callbacks: a call of [submitTask], a message of
    a worker thread, the [error] and [exit] events of a worker thread, and
    the timer armed by [executeTask].  Each callback is embedded as a
    function from states to states; the asynchronous functions are embedded
    in the order in which their synchronous segments run when no second
    callback is started before the promises of the first have settled (the
    tests and the examples of the repository await [submitTask]).  The one place where the
    source does not await a promise before going on, the call of
    [processQueue] in [handleComplete], is embedded in the order in which
    the segments really run.

    Not embedded: the [log] events, the [onProgress]/[onComplete]/[onError]
    callbacks of a task (opaque functions of the caller), [initialize] and
    [shutdown]. *)

From stdpp Require Import base numbers list strings gmap pretty.

Open Scope string_scope.
Open Scope Z_scope.

(** ** Data model *)

(** [WorkerTaskType] and [WorkerStatus], the two string unions. *)
Inductive WorkerTaskType := Monitor | Research | Learn | Optimize | Analyze.
Inductive WorkerStatus := WsIdle | WsRunning | WsPaused | WsTerminated | WsError.

#[global] Instance WorkerTaskType_eq_dec : EqDecision WorkerTaskType.
Proof. solve_decision. Defined.
#[global] Instance WorkerStatus_eq_dec : EqDecision WorkerStatus.
Proof. solve_decision. Defined.

(** Payloads the orchestrator never inspects ([config], [result]). *)
Definition Json := string.

(** [interface WorkerTask]; the optional fields are options. *)
Record WorkerTask := mkTask {
  task_id : string;
  task_type : WorkerTaskType;
  task_description : string;
  task_priority : Z;
  task_config : Json;
  task_timeout : option Z;
  task_retryOnError : option bool;
  task_maxRetries : option Z
}.

(** [interface WorkerResult]. *)
Record WorkerResult := mkResult {
  r_taskId : string;
  r_success : bool;
  r_data : option Json;
  r_error : option string;
  r_duration : Z
}.

(** [interface WorkerInstance], without the thread handle.  The identifier
    [worker_<n>] is represented by the number [n]. *)
Record WorkerInstance := mkWorker {
  w_id : nat;
  w_type : WorkerTaskType;
  w_status : WorkerStatus;
  w_currentTask : option string;
  w_tasksCompleted : nat;
  w_errors : nat;
  w_startTime : Z;
  w_lastActivity : Z
}.

#[global] Instance WorkerTask_eq_dec : EqDecision WorkerTask.
Proof. solve_decision. Defined.
#[global] Instance WorkerResult_eq_dec : EqDecision WorkerResult.
Proof. solve_decision. Defined.
#[global] Instance WorkerInstance_eq_dec : EqDecision WorkerInstance.
Proof. solve_decision. Defined.

(** [interface ParallelOrchestratorConfig]: the fields the control flow
    reads.  The two limits are counts. *)
Record Config := mkConfig {
  maxWorkers : nat;
  enableAutoScaling : bool;
  idleTimeout : Z;
  taskQueueSize : nat
}.

(** What the orchestrator sends out: the events of its [EventEmitter] and
    the messages it posts to worker threads, in the order of emission. *)
Inductive Emitted :=
  | taskQueued (t : WorkerTask)
  | taskStarted (t : WorkerTask)
  | postExecute (workerId : nat) (t : WorkerTask)
  | taskProgress (taskId : string) (completed total : Z) (message : option string)
  | taskCompleted (r : WorkerResult)
  | taskError (t : WorkerTask) (message : string)
  | workerError (workerId : nat) (message : string)
  | workerExited (workerId : nat) (code : Z)
  | postTerminate (workerId : nat) (taskId : string)
  | taskTerminated (taskId : string) (reason : string)
  | workerCreated (w : WorkerInstance)
  | workerTerminated (workerId : nat)
  | timerArmed (taskId : string) (ms : Z).

(** The private fields of the class.  [workers] is a JavaScript [Map]: its
    iteration order is the insertion order, which [getOrCreateWorker] and
    [terminateTask] depend on, so it is a list with one entry per key.
    [activeTasks] and [results] are only looked up by key. *)
Record State := mkState {
  workers : list WorkerInstance;
  taskQueue : list WorkerTask;
  activeTasks : gmap string WorkerTask;
  results : gmap string WorkerResult;
  nextWorkerId : nat;
  emitted : list Emitted
}.

Definition initial : State :=
  {| workers := []; taskQueue := []; activeTasks := ∅; results := ∅;
     nextWorkerId := 1; emitted := [] |}.

(** *** Field updates *)

Definition with_workers (ws : list WorkerInstance) (s : State) : State :=
  {| workers := ws; taskQueue := taskQueue s; activeTasks := activeTasks s;
     results := results s; nextWorkerId := nextWorkerId s; emitted := emitted s |}.

Definition with_taskQueue (q : list WorkerTask) (s : State) : State :=
  {| workers := workers s; taskQueue := q; activeTasks := activeTasks s;
     results := results s; nextWorkerId := nextWorkerId s; emitted := emitted s |}.

Definition with_activeTasks (a : gmap string WorkerTask) (s : State) : State :=
  {| workers := workers s; taskQueue := taskQueue s; activeTasks := a;
     results := results s; nextWorkerId := nextWorkerId s; emitted := emitted s |}.

Definition with_results (r : gmap string WorkerResult) (s : State) : State :=
  {| workers := workers s; taskQueue := taskQueue s; activeTasks := activeTasks s;
     results := r; nextWorkerId := nextWorkerId s; emitted := emitted s |}.

Definition with_nextWorkerId (n : nat) (s : State) : State :=
  {| workers := workers s; taskQueue := taskQueue s; activeTasks := activeTasks s;
     results := results s; nextWorkerId := n; emitted := emitted s |}.

(** [this.emit(...)] and [worker.instance.postMessage(...)]. *)
Definition emit (e : Emitted) (s : State) : State :=
  {| workers := workers s; taskQueue := taskQueue s; activeTasks := activeTasks s;
     results := results s; nextWorkerId := nextWorkerId s;
     emitted := emitted s ++ [e] |}.

Definition set_type (ty : WorkerTaskType) (w : WorkerInstance) : WorkerInstance :=
  {| w_id := w_id w; w_type := ty; w_status := w_status w;
     w_currentTask := w_currentTask w; w_tasksCompleted := w_tasksCompleted w;
     w_errors := w_errors w; w_startTime := w_startTime w;
     w_lastActivity := w_lastActivity w |}.

Definition set_status (st : WorkerStatus) (w : WorkerInstance) : WorkerInstance :=
  {| w_id := w_id w; w_type := w_type w; w_status := st;
     w_currentTask := w_currentTask w; w_tasksCompleted := w_tasksCompleted w;
     w_errors := w_errors w; w_startTime := w_startTime w;
     w_lastActivity := w_lastActivity w |}.

Definition set_currentTask (c : option string) (w : WorkerInstance) : WorkerInstance :=
  {| w_id := w_id w; w_type := w_type w; w_status := w_status w;
     w_currentTask := c; w_tasksCompleted := w_tasksCompleted w;
     w_errors := w_errors w; w_startTime := w_startTime w;
     w_lastActivity := w_lastActivity w |}.

Definition set_lastActivity (t : Z) (w : WorkerInstance) : WorkerInstance :=
  {| w_id := w_id w; w_type := w_type w; w_status := w_status w;
     w_currentTask := w_currentTask w; w_tasksCompleted := w_tasksCompleted w;
     w_errors := w_errors w; w_startTime := w_startTime w;
     w_lastActivity := t |}.

(** [worker.tasksCompleted++] and [worker.errors++]. *)
Definition incr_tasksCompleted (w : WorkerInstance) : WorkerInstance :=
  {| w_id := w_id w; w_type := w_type w; w_status := w_status w;
     w_currentTask := w_currentTask w; w_tasksCompleted := S (w_tasksCompleted w);
     w_errors := w_errors w; w_startTime := w_startTime w;
     w_lastActivity := w_lastActivity w |}.

Definition incr_errors (w : WorkerInstance) : WorkerInstance :=
  {| w_id := w_id w; w_type := w_type w; w_status := w_status w;
     w_currentTask := w_currentTask w; w_tasksCompleted := w_tasksCompleted w;
     w_errors := S (w_errors w); w_startTime := w_startTime w;
     w_lastActivity := w_lastActivity w |}.

(** *** The [workers] map *)

(** [this.workers.get(workerId)]. *)
Definition workers_get (workerId : nat) (ws : list WorkerInstance) : option WorkerInstance :=
  find (λ w, bool_decide (w_id w = workerId)) ws.

(** [this.workers.set(workerId, instance)]: a present key keeps its place,
    a new key goes last. *)
Fixpoint workers_set (w : WorkerInstance) (ws : list WorkerInstance) : list WorkerInstance :=
  match ws with
  | [] => [w]
  | x :: rest =>
      if decide (w_id x = w_id w) then w :: rest else x :: workers_set w rest
  end.

(** [this.workers.delete(workerId)]. *)
Definition workers_delete (workerId : nat) (ws : list WorkerInstance) : list WorkerInstance :=
  filter (λ w, w_id w ≠ workerId) ws.

(** An assignment to a field of the worker object with this identifier.
    The map holds a reference to the object, so the assignment shows in the
    map exactly when the object is still in it. *)
Definition workers_mutate (workerId : nat) (f : WorkerInstance → WorkerInstance)
    (ws : list WorkerInstance) : list WorkerInstance :=
  map (λ w, if decide (w_id w = workerId) then f w else w) ws.

Definition mutate (workerId : nat) (f : WorkerInstance → WorkerInstance) (s : State) : State :=
  with_workers (workers_mutate workerId f (workers s)) s.

(** *** JavaScript truthiness of the optional fields the code tests *)

(** [worker.currentTask ? ... : ...]: [undefined] and the empty string are
    falsy. *)
Definition truthy_string (o : option string) : bool :=
  match o with
  | Some x => negb (bool_decide (x = EmptyString))
  | None => false
  end.

(** [task.retryOnError && ...]. *)
Definition truthy_bool (o : option bool) : bool :=
  match o with
  | Some b => b
  | None => false
  end.

(** [!task.maxRetries] is the negation of this: [undefined] and [0] are
    falsy. *)
Definition truthy_number (o : option Z) : bool :=
  match o with
  | Some n => negb (n =? 0)
  | None => false
  end.

(** ** Operations of [ParallelOrchestrator] *)

Section Orchestrator.

Variable cfg : Config.

(** [canSpawnWorker]. *)
Definition canSpawnWorker (s : State) : bool :=
  (length (workers s) <? maxWorkers cfg)%nat.

(** [createWorker]; [now] is the value of [new Date()]. *)
Definition createWorker (now : Z) (ty : WorkerTaskType) (s : State) : nat * State :=
  let workerId := nextWorkerId s in
  let instance :=
    {| w_id := workerId; w_type := ty; w_status := WsIdle; w_currentTask := None;
       w_tasksCompleted := 0; w_errors := 0; w_startTime := now;
       w_lastActivity := now |} in
  (workerId,
   emit (workerCreated instance)
     (with_workers (workers_set instance (workers s))
        (with_nextWorkerId (S workerId) s))).

(** [getOrCreateWorker].  The result is the chosen worker object (its
    identifier) and the state; [None] stands for the last branch, the
    promise that polls every 100 ms for an idle worker and does not settle
    in this callback. *)
Definition getOrCreateWorker (now : Z) (ty : WorkerTaskType) (s : State)
    : option (nat * State) :=
  match find (λ w, bool_decide (w_type w = ty) && bool_decide (w_status w = WsIdle))
             (workers s) with
  | Some w => Some (w_id w, s)
  | None =>
      match find (λ w, bool_decide (w_status w = WsIdle)) (workers s) with
      | Some w => Some (w_id w, mutate (w_id w) (set_type ty) s)
      | None =>
          if (length (workers s) <? maxWorkers cfg)%nat
          then Some (createWorker now ty s)
          else None
      end
  end.

(** [executeTask] after [await this.getOrCreateWorker(task.type)]: the task
    becomes active on the chosen worker.  [if (task.timeout) setTimeout(...)]
    is recorded as [timerArmed]. *)
Definition executeTask_resume (now : Z) (task : WorkerTask) (workerId : nat)
    (s : State) : State :=
  let s1 := with_activeTasks (<[task_id task := task]> (activeTasks s)) s in
  let s2 := mutate workerId
              (λ w, set_lastActivity now
                      (set_status WsRunning
                         (set_currentTask (Some (task_id task)) w))) s1 in
  let s3 := emit (postExecute workerId task) (emit (taskStarted task) s2) in
  match task_timeout task with
  | Some ms => if ms =? 0 then s3 else emit (timerArmed (task_id task) ms) s3
  | None => s3
  end.

(** [executeTask]. *)
Definition executeTask (now : Z) (task : WorkerTask) (s : State) : option State :=
  match getOrCreateWorker now (task_type task) s with
  | Some (workerId, s1) => Some (executeTask_resume now task workerId s1)
  | None => None
  end.

(** The loop of [processQueue], by recursion on the queue: [q] is
    [this.taskQueue] at the loop test ([executeTask] does not touch the
    queue). *)
Fixpoint processQueue_loop (now : Z) (q : list WorkerTask) (s : State) : option State :=
  match q with
  | [] => Some (with_taskQueue [] s)
  | task :: rest =>
      if canSpawnWorker s then
        match executeTask now task (with_taskQueue rest s) with
        | Some s1 => processQueue_loop now rest s1
        | None => None
        end
      else Some (with_taskQueue q s)
  end.

(** [processQueue], run until its promise settles. *)
Definition processQueue (now : Z) (s : State) : option State :=
  processQueue_loop now (taskQueue s) s.

(** The synchronous first segment of a call of [processQueue] that is not
    awaited: the loop test, [shift] and the synchronous body of
    [getOrCreateWorker].  The result carries the task and worker of the
    suspended [executeTask], if there is one. *)
Definition processQueue_begin (now : Z) (s : State)
    : option (option (WorkerTask * nat) * State) :=
  match taskQueue s with
  | [] => Some (None, s)
  | task :: rest =>
      if canSpawnWorker s then
        match getOrCreateWorker now (task_type task) (with_taskQueue rest s) with
        | Some (workerId, s1) => Some (Some (task, workerId), s1)
        | None => None
        end
      else Some (None, s)
  end.

(** The result of the promise of [submitTask]. *)
Inductive SubmitResult :=
  | Resolved (taskId : string)
  | Rejected (message : string).

(** The identifier built from [Date.now()] and the random suffix [rnd]
    ([Math.random().toString(36).substr(2, 9)]). *)
Definition make_taskId (now : Z) (rnd : string) : string :=
  "task_" +:+ pretty now +:+ "_" +:+ rnd.

(** [submitTask]; [{...task, id: taskId}] replaces the identifier. *)
Definition submitTask (now : Z) (rnd : string) (task : WorkerTask) (s : State)
    : option (SubmitResult * State) :=
  if (taskQueueSize cfg <=? length (taskQueue s))%nat then
    Some (Rejected ("Task queue full (" +:+ pretty (taskQueueSize cfg) +:+ ")"), s)
  else
    let taskId := make_taskId now rnd in
    let fullTask :=
      {| task_id := taskId; task_type := task_type task;
         task_description := task_description task;
         task_priority := task_priority task; task_config := task_config task;
         task_timeout := task_timeout task;
         task_retryOnError := task_retryOnError task;
         task_maxRetries := task_maxRetries task |} in
    let s1 := emit (taskQueued fullTask) (with_taskQueue (taskQueue s ++ [fullTask]) s) in
    match processQueue now s1 with
    | Some s2 => Some (Resolved taskId, s2)
    | None => None
    end.

(** [worker.currentTask ? this.activeTasks.get(worker.currentTask) : undefined],
    the first line of the three message handlers. *)
Definition held_task (worker : WorkerInstance) (s : State) : option WorkerTask :=
  if truthy_string (w_currentTask worker) then
    match w_currentTask worker with
    | Some c => activeTasks s !! c
    | None => None
    end
  else None.

(** [handleProgress]. *)
Definition handleProgress (worker : WorkerInstance) (completed total : Z)
    (message : option string) (s : State) : State :=
  match held_task worker s with
  | None => s
  | Some task => emit (taskProgress (task_id task) completed total message) s
  end.

(** [terminateWorker]. *)
Definition terminateWorker (workerId : nat) (s : State) : State :=
  match workers_get workerId (workers s) with
  | None => s
  | Some _ =>
      emit (workerTerminated workerId)
        (with_workers (workers_delete workerId (workers s)) s)
  end.

(** [considerScaleDown]; [later] is the value of [Date.now()]. *)
Definition considerScaleDown (later : Z) (worker : WorkerInstance) (s : State) : State :=
  if (length (workers s) <=? 1)%nat then s
  else if (0 <? length (taskQueue s))%nat then s
  else if idleTimeout cfg <? later - w_lastActivity worker
       then terminateWorker (w_id worker) s
       else s.

(** [handleComplete].  [worker] is the worker object as it is when the
    handler is entered.  [this.processQueue()] is not awaited: its first
    segment runs, then [considerScaleDown], and the suspended [executeTask]
    and the rest of the loop run when the handler has returned. *)
Definition handleComplete (now later : Z) (worker : WorkerInstance)
    (result : Json) (duration : Z) (s : State) : option State :=
  match held_task worker s with
  | None => Some s
  | Some task =>
      let res :=
        {| r_taskId := task_id task; r_success := true; r_data := Some result;
           r_error := None; r_duration := duration |} in
      let s1 := with_results (<[task_id task := res]> (results s)) s in
      let s2 := with_activeTasks (delete (task_id task) (activeTasks s1)) s1 in
      let s3 := mutate (w_id worker)
                  (λ w, incr_tasksCompleted
                          (set_status WsIdle (set_currentTask None w))) s2 in
      let s4 := emit (taskCompleted res) s3 in
      match processQueue_begin now s4 with
      | None => None
      | Some (suspended, s5) =>
          let s6 := if enableAutoScaling cfg
                    then considerScaleDown later worker s5 else s5 in
          match suspended with
          | None => Some s6
          | Some (next, workerId) =>
              processQueue now (executeTask_resume now next workerId s6)
          end
      end
  end.

(** The test [task.retryOnError && (!task.maxRetries || worker.errors <
    task.maxRetries)] of [handleTaskError]; [errors] is [worker.errors]. *)
Definition retry_wanted (task : WorkerTask) (errors : nat) : bool :=
  truthy_bool (task_retryOnError task) &&
  (negb (truthy_number (task_maxRetries task)) ||
   match task_maxRetries task with
   | Some n => Z.of_nat errors <? n
   | None => false
   end).

(** [handleTaskError] up to its last statement: the failed result is
    stored, the worker is set free and the task is put back at the front of
    the queue when the retry test holds.  [task] is the held task. *)
Definition failTask (worker : WorkerInstance) (message : string)
    (task : WorkerTask) (s : State) : State :=
  let s1 := mutate (w_id worker) incr_errors s in
  let res :=
    {| r_taskId := task_id task; r_success := false; r_data := None;
       r_error := Some message; r_duration := 0 |} in
  let s2 := with_results (<[task_id task := res]> (results s1)) s1 in
  let s3 := with_activeTasks (delete (task_id task) (activeTasks s2)) s2 in
  let s4 := mutate (w_id worker) (λ w, set_status WsIdle (set_currentTask None w)) s3 in
  let s5 := emit (taskError task message) s4 in
  if retry_wanted task (S (w_errors worker))
  then with_taskQueue (task :: taskQueue s5) s5
  else s5.

(** [handleTaskError]; [worker] is the worker object as it is when the
    handler is entered (it may be out of the map already). *)
Definition handleTaskError (now : Z) (worker : WorkerInstance) (message : string)
    (s : State) : option State :=
  match held_task worker s with
  | None => Some s
  | Some task => processQueue now (failTask worker message task s)
  end.

(** The messages of a worker thread ([reportProgress], [reportComplete],
    [reportError] of parallel-worker.ts); every one carries the identifier
    of the task it is about. *)
Inductive WorkerMessage :=
  | MsgProgress (taskId : string) (completed total : Z) (message : option string)
  | MsgComplete (taskId : string) (result : Json) (duration : Z)
  | MsgError (taskId : string) (message : string)
  | MsgOther (type : string).

(** [handleWorkerMessage]. *)
Definition handleWorkerMessage (now later : Z) (workerId : nat) (m : WorkerMessage)
    (s : State) : option State :=
  match workers_get workerId (workers s) with
  | None => Some s
  | Some w =>
      let s1 := mutate workerId (set_lastActivity now) s in
      let worker := set_lastActivity now w in
      match m with
      | MsgProgress _ completed total message =>
          Some (handleProgress worker completed total message s1)
      | MsgComplete _ result duration =>
          handleComplete now later worker result duration s1
      | MsgError _ message => handleTaskError now worker message s1
      | MsgOther _ => Some s1
      end
  end.

(** [handleWorkerError], the [error] event of a worker thread. *)
Definition handleWorkerError (now : Z) (workerId : nat) (message : string)
    (s : State) : option State :=
  match workers_get workerId (workers s) with
  | None => Some s
  | Some w =>
      let s1 := emit (workerError workerId message)
                  (mutate workerId (set_status WsError) s) in
      let worker := set_status WsError w in
      if truthy_string (w_currentTask worker)
      then handleTaskError now worker message s1
      else Some s1
  end.

(** [handleWorkerExit], the [exit] event of a worker thread. *)
Definition handleWorkerExit (now : Z) (workerId : nat) (code : Z) (s : State)
    : option State :=
  match workers_get workerId (workers s) with
  | None => Some s
  | Some worker =>
      let s1 := emit (workerExited workerId code)
                  (with_workers (workers_delete workerId (workers s)) s) in
      if truthy_string (w_currentTask worker)
      then handleTaskError now worker ("Worker exited with code " +:+ pretty code) s1
      else Some s1
  end.

(** [terminateTask]. *)
Definition terminateTask (taskId : string) (reason : string) (s : State) : State :=
  match activeTasks s !! taskId with
  | None => s
  | Some _ =>
      match find (λ w, bool_decide (w_currentTask w = Some taskId)) (workers s) with
      | None => s
      | Some worker =>
          let s1 := emit (postTerminate (w_id worker) taskId) s in
          let res :=
            {| r_taskId := taskId; r_success := false; r_data := None;
               r_error := Some ("Task terminated: " +:+ reason); r_duration := 0 |} in
          let s2 := with_results (<[taskId := res]> (results s1)) s1 in
          let s3 := with_activeTasks (delete taskId (activeTasks s2)) s2 in
          let s4 := mutate (w_id worker)
                      (λ w, set_status WsIdle (set_currentTask None w)) s3 in
          emit (taskTerminated taskId reason) s4
      end
  end.

(** The callback of the timer armed by [executeTask]. *)
Definition timerFired (taskId : string) (s : State) : State :=
  match activeTasks s !! taskId with
  | Some _ => terminateTask taskId "timeout" s
  | None => s
  end.

(** ** Queries *)

(** The return type of [getTaskStatus]. *)
Inductive TaskStatus := queued | running | completed | error | unknown.

(** [getTaskStatus]. *)
Definition getTaskStatus (s : State) (taskId : string) : TaskStatus :=
  if existsb (λ t, bool_decide (task_id t = taskId)) (taskQueue s) then queued
  else if bool_decide (is_Some (activeTasks s !! taskId)) then running
  else match results s !! taskId with
       | Some result => if r_success result then completed else error
       | None => unknown
       end.

(** [getResult]. *)
Definition getResult (s : State) (taskId : string) : option WorkerResult :=
  results s !! taskId.

(** [getStatus().workers] and [getStatus().activeWorkers]. *)
Definition workerCount (s : State) : nat := length (workers s).

Definition activeWorkers (s : State) : nat :=
  length (filter (λ w, w_status w = WsRunning) (workers s)).

(** ** The orchestrator as a transition system *)

(** What can happen to the orchestrator: a call of [submitTask], a message
    of a worker, the [error] or [exit] event of a worker, the firing of a
    task's timer.  Timers are not tracked: a [TimerFired] may come at any
    time for any identifier, which covers every firing the source can see. *)
Inductive Input :=
  | Submit (task : WorkerTask) (rnd : string)
  | Message (workerId : nat) (m : WorkerMessage) (later : Z)
  | WorkerFailed (workerId : nat) (message : string)
  | WorkerExit (workerId : nat) (code : Z)
  | TimerFired (taskId : string).

(** One callback, run at time [now]; [None] when a promise of it is left
    polling. *)
Definition step (s : State) (now : Z) (i : Input) : option State :=
  match i with
  | Submit task rnd => snd <$> submitTask now rnd task s
  | Message workerId m later => handleWorkerMessage now later workerId m s
  | WorkerFailed workerId message => handleWorkerError now workerId message s
  | WorkerExit workerId code => handleWorkerExit now workerId code s
  | TimerFired taskId => Some (timerFired taskId s)
  end.

(** A sequence of callbacks with their times. *)
Fixpoint run (s : State) (l : list (Z * Input)) : option State :=
  match l with
  | [] => Some s
  | (now, i) :: l' =>
      match step s now i with
      | Some s' => run s' l'
      | None => None
      end
  end.

End Orchestrator.

(** ** Notions used in the statements *)

(** The pool holds at most [maxWorkers] workers. *)
Definition pool_bounded (cfg : Config) (s : State) : Prop :=
  (length (workers s) ≤ maxWorkers cfg)%nat.

(** The identifiers given out by the calls of [submitTask] in a sequence of
    callbacks. *)
Fixpoint submitted_ids (l : list (Z * Input)) : gset string :=
  match l with
  | [] => ∅
  | (now, Submit _ rnd) :: l' => {[ make_taskId now rnd ]} ∪ submitted_ids l'
  | _ :: l' => submitted_ids l'
  end.

(** Every identifier in the queue, in [activeTasks] and in [results] is
    in [ids]. *)
Definition queue_within (ids : gset string) (q : list WorkerTask) : Prop :=
  Forall (λ t, task_id t ∈ ids) q.

Definition maps_within (ids : gset string) (s : State) : Prop :=
  (∀ k t, activeTasks s !! k = Some t → k ∈ ids ∧ task_id t ∈ ids) ∧
  (∀ k, is_Some (results s !! k) → k ∈ ids).

Definition within (ids : gset string) (s : State) : Prop :=
  queue_within ids (taskQueue s) ∧ maps_within ids s.

(** A task identifier the orchestrator holds nowhere. *)
Definition untracked (s : State) (taskId : string) : Prop :=
  Forall (λ t, task_id t ≠ taskId) (taskQueue s) ∧
  activeTasks s !! taskId = None ∧
  results s !! taskId = None.

(** From [s] to [s'] the result store is left alone or gets one entry, and
    that entry satisfies [P]. *)
Definition writes_only (P : WorkerResult → Prop) (s s' : State) : Prop :=
  results s' = results s ∨
  ∃ k r, results s' = <[k := r]> (results s) ∧ P r.

Definition failed_result (r : WorkerResult) : Prop :=
  r_success r = false ∧ r_duration r = 0.

Definition completed_result (duration : Z) (r : WorkerResult) : Prop :=
  r_success r = true ∧ r_duration r = duration.

(** The tasks of the [taskStarted] events, in the order of emission: the
    order of dispatch. *)
Definition dispatched (s : State) : list WorkerTask :=
  omap (λ e, match e with taskStarted t => Some t | _ => None end) (emitted s).


(** The state after a sequence of callbacks from the start. *)
Definition after (cfg : Config) (l : list (Z * Input)) : State :=
  default initial (run cfg initial l).

(** Pools of one and of two workers, with the defaults of the constructor
    for the rest. *)
Definition pool_of_one : Config :=
  {| maxWorkers := 1; enableAutoScaling := true; idleTimeout := 300000;
     taskQueueSize := 100 |}.

Definition pool_of_two : Config :=
  {| maxWorkers := 2; enableAutoScaling := true; idleTimeout := 300000;
     taskQueueSize := 100 |}.

(** An argument of [submitTask]: a monitor task with a description and a
    priority, and no timeout and no retry. *)
Definition plain_task (description : string) (priority : Z) : WorkerTask :=
  {| task_id := EmptyString; task_type := Monitor; task_description := description;
     task_priority := priority; task_config := "{}"; task_timeout := None;
     task_retryOnError := None; task_maxRetries := None |}.

Definition with_timeout (ms : Z) (t : WorkerTask) : WorkerTask :=
  {| task_id := task_id t; task_type := task_type t;
     task_description := task_description t; task_priority := task_priority t;
     task_config := task_config t; task_timeout := Some ms;
     task_retryOnError := task_retryOnError t; task_maxRetries := task_maxRetries t |}.


(** ** The rest of the interface *)

(** [interface WorkerInfo], what [getWorkers] gives out of a worker. *)
Record WorkerInfo := mkInfo {
  info_id : nat;
  info_type : WorkerTaskType;
  info_status : WorkerStatus;
  info_currentTask : option string;
  info_tasksCompleted : nat;
  info_errors : nat;
  info_startTime : Z;
  info_lastActivity : Z
}.

(** [getWorkers]. *)
Definition getWorkers (s : State) : list WorkerInfo :=
  map (λ w, {| info_id := w_id w; info_type := w_type w; info_status := w_status w;
               info_currentTask := w_currentTask w;
               info_tasksCompleted := w_tasksCompleted w; info_errors := w_errors w;
               info_startTime := w_startTime w;
               info_lastActivity := w_lastActivity w |})
      (workers s).

(** The object returned by [getStatus]. *)
Record OrchestratorStatus := mkStatus {
  st_workers : nat;
  st_activeWorkers : nat;
  st_queuedTasks : nat;
  st_activeTasks : nat;
  st_completedTasks : nat;
  st_config : Config
}.

(** [getStatus]. *)
Definition getStatus (cfg : Config) (s : State) : OrchestratorStatus :=
  {| st_workers := length (workers s);
     st_activeWorkers := length (filter (λ w, w_status w = WsRunning) (workers s));
     st_queuedTasks := length (taskQueue s);
     st_activeTasks := size (activeTasks s);
     st_completedTasks := size (results s);
     st_config := cfg |}.

(** ** The worker thread (parallel-worker.ts) *)

(** What a task handler ([executeMonitorTask], [executeResearchTask], ...)
    does as far as the orchestrator can see: the progress it reports, the
    value it returns or the message of the error it throws, and the time it
    takes.  The handlers themselves, which sleep and draw random numbers, are
    not embedded. *)
Record HandlerRun := mkHandlerRun {
  h_progress : list (Z * Z * option string);
  h_outcome : Json + string;
  h_elapsed : Z
}.

(** [executeTask] of the worker: the messages it posts for a task, in
    order. *)
Definition worker_executeTask (taskId : string) (h : HandlerRun) : list WorkerMessage :=
  (MsgProgress taskId 0 100 (Some "Starting...")
   :: map (λ p, MsgProgress taskId p.1.1 p.1.2 p.2) (h_progress h)
   ++ [match h_outcome h with
       | inl result => MsgComplete taskId result (h_elapsed h)
       | inr message => MsgError taskId message
       end])%list.

(** The messages of one worker as callbacks of the orchestrator: [inputs]
    delivers [messages], one callback each, at any times. *)
Definition delivers (workerId : nat) (messages : list WorkerMessage)
    (inputs : list (Z * Input)) : Prop :=
  Forall2 (λ i m, ∃ later, i.2 = Message workerId m later) inputs messages.

(** ** Notions used in the statements on the pool *)

(** The assignments to the fields of a worker object that the handlers
    make. *)
Inductive field_update : (WorkerInstance → WorkerInstance) → Prop :=
  | update_type ty : field_update (set_type ty)
  | update_lastActivity t : field_update (set_lastActivity t)
  | update_started now taskId :
      field_update (λ w, set_lastActivity now
                           (set_status WsRunning (set_currentTask (Some taskId) w)))
  | update_completed :
      field_update (λ w, incr_tasksCompleted
                           (set_status WsIdle (set_currentTask None w)))
  | update_errors : field_update incr_errors
  | update_freed : field_update (λ w, set_status WsIdle (set_currentTask None w))
  | update_failed : field_update (set_status WsError).

(** A property of the pool and of the counter of worker identifiers. *)
Definition pool_inv (J : list WorkerInstance → nat → Prop) (s : State) : Prop :=
  J (workers s) (nextWorkerId s).

(** The identifiers in the pool are distinct and were given out by
    [createWorker]. *)
Definition ids_fresh (ws : list WorkerInstance) (n : nat) : Prop :=
  NoDup (map w_id ws) ∧ Forall (λ w, (w_id w < n)%nat) ws.

(** A worker's status and current task agree: running with a task, idle
    without one, and never paused or terminated. *)
Definition coherent (w : WorkerInstance) : Prop :=
  match w_status w with
  | WsRunning => is_Some (w_currentTask w)
  | WsIdle => w_currentTask w = None
  | WsError => True
  | WsPaused | WsTerminated => False
  end.

(** Worker [workerId] holds task [t], which is active and not queued. *)
Definition holds_task (workerId : nat) (t : WorkerTask) (s : State) : Prop :=
  (∃ w, workers_get workerId (workers s) = Some w ∧
        w_currentTask w = Some (task_id t)) ∧
  task_id t ≠ EmptyString ∧
  activeTasks s !! task_id t = Some t ∧
  Forall (λ q, task_id q ≠ task_id t) (taskQueue s).

(** The tasks in the queue and in [activeTasks] satisfy [P]. *)
Definition tasks_satisfy (P : WorkerTask → Prop) (s : State) : Prop :=
  Forall P (taskQueue s) ∧ ∀ k t, activeTasks s !! k = Some t → P t.

(** The task that [submitTask] makes of its argument. *)
Definition submitted_task (now : Z) (rnd : string) (task : WorkerTask) : WorkerTask :=
  {| task_id := make_taskId now rnd; task_type := task_type task;
     task_description := task_description task;
     task_priority := task_priority task; task_config := task_config task;
     task_timeout := task_timeout task;
     task_retryOnError := task_retryOnError task;
     task_maxRetries := task_maxRetries task |}.

(** The arguments of the calls of [submitTask] in a sequence of callbacks
    satisfy [P]. *)
Definition submissions_satisfy (P : WorkerTask → Prop) (l : list (Z * Input)) : Prop :=
  Forall (λ i, match i.2 with
               | Submit task rnd => P (submitted_task i.1 rnd task)
               | _ => True
               end) l.

(** The task does not ask to be retried. *)
Definition no_retry (t : WorkerTask) : Prop :=
  truthy_bool (task_retryOnError t) = false.

(** The [taskProgress] events, in the order of emission. *)
Definition progress_reported (s : State) : list (string * Z * Z * option string) :=
  omap (λ e, match e with
             | taskProgress taskId count total message =>
                 Some (taskId, count, total, message)
             | _ => None
             end) (emitted s).

(** The result that the orchestrator stores for the outcome of a handler. *)
Definition result_of (taskId : string) (h : HandlerRun) : WorkerResult :=
  match h_outcome h with
  | inl result =>
      {| r_taskId := taskId; r_success := true; r_data := Some result;
         r_error := None; r_duration := h_elapsed h |}
  | inr message =>
      {| r_taskId := taskId; r_success := false; r_data := None;
         r_error := Some message; r_duration := 0 |}
  end.

(** The handler returns, or the task does not ask for a retry. *)
Definition ends_task (t : WorkerTask) (h : HandlerRun) : Prop :=
  (∃ result, h_outcome h = inl result) ∨ no_retry t.

(** What a callback that ends a task leaves of it: nothing in the queue,
    nothing active, no progress event of its own. *)
Definition finished (taskId : string) (s0 s' : State) : Prop :=
  getTaskStatus s' taskId
  = match results s' !! taskId with
    | Some r => if r_success r then completed else error
    | None => unknown
    end ∧
  progress_reported s' = progress_reported s0.

(** * Properties *)

(** ** Reading fields of updated states *)

Lemma workers_mutate_length workerId f ws :
  length (workers_mutate workerId f ws) = length ws.
Proof. unfold workers_mutate. by rewrite length_map. Qed.

Lemma workers_set_length w ws :
  (length (workers_set w ws) ≤ S (length ws))%nat.
Proof.
  induction ws as [|x rest IH]; simpl; [lia|].
  destruct (decide (w_id x = w_id w)); simpl; lia.
Qed.

Lemma workers_delete_length workerId ws :
  (length (workers_delete workerId ws) ≤ length ws)%nat.
Proof. unfold workers_delete. apply length_filter. Qed.

Lemma executeTask_resume_workers now task workerId s :
  workers (executeTask_resume now task workerId s)
  = workers_mutate workerId
      (λ w, set_lastActivity now
              (set_status WsRunning (set_currentTask (Some (task_id task)) w)))
      (workers s).
Proof.
  unfold executeTask_resume.
  destruct (task_timeout task) as [ms|]; [destruct (ms =? 0)|]; reflexivity.
Qed.

Lemma executeTask_resume_taskQueue now task workerId s :
  taskQueue (executeTask_resume now task workerId s) = taskQueue s.
Proof.
  unfold executeTask_resume.
  destruct (task_timeout task) as [ms|]; [destruct (ms =? 0)|]; reflexivity.
Qed.

Lemma executeTask_resume_results now task workerId s :
  results (executeTask_resume now task workerId s) = results s.
Proof.
  unfold executeTask_resume.
  destruct (task_timeout task) as [ms|]; [destruct (ms =? 0)|]; reflexivity.
Qed.

Lemma executeTask_resume_activeTasks now task workerId s :
  activeTasks (executeTask_resume now task workerId s)
  = <[task_id task := task]> (activeTasks s).
Proof.
  unfold executeTask_resume.
  destruct (task_timeout task) as [ms|]; [destruct (ms =? 0)|]; reflexivity.
Qed.

(** What [getOrCreateWorker] can do to the state, branch by branch. *)
Lemma getOrCreateWorker_cases cfg now ty s workerId s1 :
  getOrCreateWorker cfg now ty s = Some (workerId, s1) →
  s1 = s ∨
  (∃ w, s1 = mutate (w_id w) (set_type ty) s) ∨
  ((length (workers s) < maxWorkers cfg)%nat ∧ (workerId, s1) = createWorker now ty s).
Proof.
  unfold getOrCreateWorker. intros H.
  destruct (find _ (workers s)) as [w|]; [left; congruence|].
  destruct (find _ (workers s)) as [w|].
  - right; left. exists w. congruence.
  - destruct (Nat.ltb_spec (length (workers s)) (maxWorkers cfg)); [|done].
    right; right. split; [done|congruence].
Qed.

(** ** The promises of the orchestrator settle *)

(** Under the loop test of [processQueue] the polling branch of
    [getOrCreateWorker] is out of reach. *)
Lemma getOrCreateWorker_settles cfg now ty s :
  canSpawnWorker cfg s = true → is_Some (getOrCreateWorker cfg now ty s).
Proof.
  unfold canSpawnWorker, getOrCreateWorker. intros Hc.
  destruct (find _ (workers s)); [done|].
  destruct (find _ (workers s)); [done|].
  by rewrite Hc.
Qed.

Lemma processQueue_loop_settles cfg now q s :
  is_Some (processQueue_loop cfg now q s).
Proof.
  revert s. induction q as [|task rest IH]; intros s; simpl; [done|].
  destruct (canSpawnWorker cfg s) eqn:Hc; [|done].
  unfold executeTask.
  destruct (getOrCreateWorker_settles cfg now (task_type task) (with_taskQueue rest s) Hc)
    as [[workerId s1] ->].
  apply IH.
Qed.

Lemma processQueue_settles cfg now s : is_Some (processQueue cfg now s).
Proof. apply processQueue_loop_settles. Qed.

Lemma processQueue_begin_settles cfg now s : is_Some (processQueue_begin cfg now s).
Proof.
  unfold processQueue_begin. destruct (taskQueue s) as [|task rest]; [done|].
  destruct (canSpawnWorker cfg s) eqn:Hc; [|done].
  by destruct (getOrCreateWorker_settles cfg now (task_type task) (with_taskQueue rest s) Hc)
    as [[workerId s1] ->].
Qed.

Lemma handleTaskError_settles cfg now worker message s :
  is_Some (handleTaskError cfg now worker message s).
Proof.
  unfold handleTaskError. destruct (held_task worker s); [|done].
  apply processQueue_settles.
Qed.

Lemma handleComplete_settles cfg now later worker result duration s :
  is_Some (handleComplete cfg now later worker result duration s).
Proof.
  unfold handleComplete. destruct (held_task worker s) as [task|]; [|done].
  match goal with |- context [processQueue_begin cfg now ?x] =>
    destruct (processQueue_begin_settles cfg now x) as [[suspended s5] ->] end.
  destruct suspended as [[next workerId]|]; [|done].
  apply processQueue_settles.
Qed.

Lemma step_settles cfg s now i : is_Some (step cfg s now i).
Proof.
  destruct i as [task rnd|workerId m later|workerId message|workerId code|taskId]; simpl.
  - unfold submitTask. destruct (_ <=? _)%nat; [done|].
    match goal with |- context [processQueue cfg now ?x] =>
      destruct (processQueue_settles cfg now x) as [s2 ->] end.
    done.
  - unfold handleWorkerMessage. destruct (workers_get _ _); [|done].
    destruct m; try done.
    + apply handleComplete_settles.
    + apply handleTaskError_settles.
  - unfold handleWorkerError. destruct (workers_get _ _); [|done].
    destruct (truthy_string _); [|done]. apply handleTaskError_settles.
  - unfold handleWorkerExit. destruct (workers_get _ _); [|done].
    destruct (truthy_string _); [|done]. apply handleTaskError_settles.
  - done.
Qed.

Lemma run_settles cfg l : ∀ s, is_Some (run cfg s l).
Proof.
  induction l as [|[now i] l IH]; intros s; simpl; [done|].
  destruct (step_settles cfg s now i) as [s' ->]. apply IH.
Qed.

Lemma after_run cfg l : run cfg initial l = Some (after cfg l).
Proof. unfold after. by destruct (run_settles cfg l initial) as [s ->]. Qed.

(** ** The size of the pool *)

Section PoolBound.

Variable cfg : Config.

Lemma getOrCreateWorker_bounded now ty s workerId s1 :
  getOrCreateWorker cfg now ty s = Some (workerId, s1) →
  pool_bounded cfg s → pool_bounded cfg s1.
Proof.
  unfold pool_bounded. intros H Hb.
  destruct (getOrCreateWorker_cases _ _ _ _ _ _ H) as [->|[[w ->]|[Hlt Hc]]]; [done| |].
  - simpl. by rewrite workers_mutate_length.
  - unfold createWorker in Hc. injection Hc as _ ->. simpl.
    pose proof (workers_set_length
      {| w_id := nextWorkerId s; w_type := ty; w_status := WsIdle;
         w_currentTask := None; w_tasksCompleted := 0%nat; w_errors := 0%nat;
         w_startTime := now; w_lastActivity := now |} (workers s)).
    lia.
Qed.

Lemma executeTask_resume_bounded now task workerId s :
  pool_bounded cfg s → pool_bounded cfg (executeTask_resume now task workerId s).
Proof.
  unfold pool_bounded.
  by rewrite executeTask_resume_workers, workers_mutate_length.
Qed.

Lemma processQueue_loop_bounded now q : ∀ s s',
  processQueue_loop cfg now q s = Some s' → pool_bounded cfg s → pool_bounded cfg s'.
Proof.
  induction q as [|task rest IH]; intros s s'; simpl.
  - intros [= <-]. done.
  - destruct (canSpawnWorker cfg s); [|by intros [= <-]].
    unfold executeTask.
    destruct (getOrCreateWorker cfg now (task_type task) (with_taskQueue rest s))
      as [[workerId s1]|] eqn:Hg; [|done].
    intros Hl Hb. eapply IH; [exact Hl|].
    apply executeTask_resume_bounded.
    eapply getOrCreateWorker_bounded; [exact Hg|exact Hb].
Qed.

Lemma processQueue_bounded now s s' :
  processQueue cfg now s = Some s' → pool_bounded cfg s → pool_bounded cfg s'.
Proof. apply processQueue_loop_bounded. Qed.

Lemma processQueue_begin_bounded now s suspended s' :
  processQueue_begin cfg now s = Some (suspended, s') →
  pool_bounded cfg s → pool_bounded cfg s'.
Proof.
  unfold processQueue_begin. destruct (taskQueue s) as [|task rest]; [by intros [= <- <-]|].
  destruct (canSpawnWorker cfg s); [|by intros [= <- <-]].
  destruct (getOrCreateWorker cfg now (task_type task) (with_taskQueue rest s))
    as [[workerId s1]|] eqn:Hg; [|done].
  intros [= <- <-] Hb. eapply getOrCreateWorker_bounded; [exact Hg|exact Hb].
Qed.

Lemma terminateWorker_bounded workerId s :
  pool_bounded cfg s → pool_bounded cfg (terminateWorker workerId s).
Proof.
  unfold pool_bounded, terminateWorker. intros Hb.
  destruct (workers_get workerId (workers s)); [|done]. simpl.
  pose proof (workers_delete_length workerId (workers s)). lia.
Qed.

Lemma considerScaleDown_bounded later worker s :
  pool_bounded cfg s → pool_bounded cfg (considerScaleDown cfg later worker s).
Proof.
  unfold considerScaleDown. intros Hb.
  destruct (_ <=? _)%nat; [done|]. destruct (_ <? _)%nat; [done|].
  destruct (_ <? _); [|done]. by apply terminateWorker_bounded.
Qed.

Lemma failTask_bounded worker message task s :
  pool_bounded cfg s → pool_bounded cfg (failTask worker message task s).
Proof.
  unfold pool_bounded, failTask. intros Hb.
  destruct (retry_wanted _ _); simpl; by rewrite !workers_mutate_length.
Qed.

Lemma handleTaskError_bounded now worker message s s' :
  handleTaskError cfg now worker message s = Some s' →
  pool_bounded cfg s → pool_bounded cfg s'.
Proof.
  unfold handleTaskError. destruct (held_task worker s) as [task|]; [|by intros [= <-]].
  intros Hp Hb. eapply processQueue_bounded; [exact Hp|].
  by apply failTask_bounded.
Qed.

Lemma handleComplete_bounded now later worker result duration s s' :
  handleComplete cfg now later worker result duration s = Some s' →
  pool_bounded cfg s → pool_bounded cfg s'.
Proof.
  unfold handleComplete. destruct (held_task worker s) as [task|]; [|by intros [= <-]].
  match goal with |- context [processQueue_begin cfg now ?x] =>
    set (s4 := x); destruct (processQueue_begin cfg now s4) as [[suspended s5]|] eqn:Hb5 end;
    [|done].
  intros H Hb.
  assert (pool_bounded cfg s4) as Hb4.
  { unfold pool_bounded, s4. simpl. by rewrite workers_mutate_length. }
  pose proof (processQueue_begin_bounded _ _ _ _ Hb5 Hb4) as Hb5'.
  assert (pool_bounded cfg (if enableAutoScaling cfg
                        then considerScaleDown cfg later worker s5 else s5)) as Hb6.
  { destruct (enableAutoScaling cfg); [by apply considerScaleDown_bounded|done]. }
  destruct suspended as [[next workerId]|].
  - eapply processQueue_bounded; [exact H|]. by apply executeTask_resume_bounded.
  - by injection H as <-.
Qed.

Lemma terminateTask_bounded taskId reason s :
  pool_bounded cfg s → pool_bounded cfg (terminateTask taskId reason s).
Proof.
  unfold pool_bounded, terminateTask. intros Hb.
  destruct (activeTasks s !! taskId); [|done].
  destruct (find _ (workers s)); [|done]. simpl.
  by rewrite workers_mutate_length.
Qed.

Lemma step_bounded s now i s' :
  step cfg s now i = Some s' → pool_bounded cfg s → pool_bounded cfg s'.
Proof.
  destruct i as [task rnd|workerId m later|workerId message|workerId code|taskId]; simpl.
  - unfold submitTask. destruct (_ <=? _)%nat; [by intros [= <-]|].
    match goal with |- context [processQueue cfg now ?x] =>
      destruct (processQueue cfg now x) as [s2|] eqn:Hp end; [|done].
    intros [= <-] Hb. eapply processQueue_bounded; [exact Hp|exact Hb].
  - unfold handleWorkerMessage.
    destruct (workers_get workerId (workers s)) as [w|]; [|by intros [= <-]].
    assert (pool_bounded cfg s → pool_bounded cfg (mutate workerId (set_lastActivity now) s)) as Hm.
    { unfold pool_bounded. simpl. by rewrite workers_mutate_length. }
    destruct m as [tid c t msg|tid result duration|tid msg|ty].
    + intros [= <-] Hb. unfold handleProgress.
      destruct (held_task _ _); by apply Hm.
    + intros H Hb. eapply handleComplete_bounded; [exact H|by apply Hm].
    + intros H Hb. eapply handleTaskError_bounded; [exact H|by apply Hm].
    + intros [= <-] Hb. by apply Hm.
  - unfold handleWorkerError.
    destruct (workers_get workerId (workers s)) as [w|]; [|by intros [= <-]].
    assert (pool_bounded cfg s →
            pool_bounded cfg (emit (workerError workerId message)
                            (mutate workerId (set_status WsError) s))) as Hm.
    { unfold pool_bounded. simpl. by rewrite workers_mutate_length. }
    destruct (truthy_string _).
    + intros H Hb. eapply handleTaskError_bounded; [exact H|by apply Hm].
    + intros [= <-] Hb. by apply Hm.
  - unfold handleWorkerExit.
    destruct (workers_get workerId (workers s)) as [w|]; [|by intros [= <-]].
    assert (pool_bounded cfg s →
            pool_bounded cfg (emit (workerExited workerId code)
                            (with_workers (workers_delete workerId (workers s)) s))) as Hm.
    { unfold pool_bounded. simpl.
      pose proof (workers_delete_length workerId (workers s)). lia. }
    destruct (truthy_string _).
    + intros H Hb. eapply handleTaskError_bounded; [exact H|by apply Hm].
    + intros [= <-] Hb. by apply Hm.
  - intros [= <-] Hb. unfold timerFired.
    destruct (activeTasks s !! taskId); [|done]. by apply terminateTask_bounded.
Qed.

Lemma run_bounded l : ∀ s s',
  run cfg s l = Some s' → pool_bounded cfg s → pool_bounded cfg s'.
Proof.
  induction l as [|[now i] l IH]; intros s s'; simpl; [by intros [= <-]|].
  destruct (step cfg s now i) as [s1|] eqn:Hs; [|done].
  intros Hr Hb. eapply IH; [exact Hr|]. eapply step_bounded; [exact Hs|exact Hb].
Qed.

Lemma activeWorkers_le_workerCount s : (activeWorkers s ≤ workerCount s)%nat.
Proof. unfold activeWorkers, workerCount. apply length_filter. Qed.

End PoolBound.

(** C3. Whatever callbacks run from the start (calls of [submitTask],
    messages of completion, of error and of progress, worker failures and
    exits, timers, in any order and at any times), they all settle, and in
    the state reached the pool holds at most [maxWorkers] workers; so at
    most [maxWorkers] of them are running. *)
Theorem pool_never_exceeds_maxWorkers (cfg : Config) (l : list (Z * Input)) :
  ∃ s, run cfg initial l = Some s ∧
       (workerCount s ≤ maxWorkers cfg)%nat ∧
       (activeWorkers s ≤ maxWorkers cfg)%nat.
Proof.
  destruct (run_settles cfg l initial) as [s Hs]. exists s.
  assert (pool_bounded cfg s) as Hb.
  { eapply run_bounded; [exact Hs|]. unfold pool_bounded. simpl. lia. }
  split; [exact Hs|]. split; [exact Hb|].
  pose proof (activeWorkers_le_workerCount s). unfold pool_bounded, workerCount in *. lia.
Qed.

(** ** Submission and the capacity of the queue *)

(** C4. [submitTask] on a full queue rejects at once with the queue-full
    error and gives back the very state it was called in (so the queue, the
    active tasks and the results are as before, and nothing was evicted);
    below capacity it resolves with the identifier of the new task. *)
Theorem submitTask_capacity (cfg : Config) (now : Z) (rnd : string)
    (task : WorkerTask) (s : State) :
  ((taskQueueSize cfg ≤ length (taskQueue s))%nat →
   submitTask cfg now rnd task s
   = Some (Rejected ("Task queue full (" +:+ pretty (taskQueueSize cfg) +:+ ")"), s))
  ∧
  ((length (taskQueue s) < taskQueueSize cfg)%nat →
   ∃ s', submitTask cfg now rnd task s = Some (Resolved (make_taskId now rnd), s')).
Proof.
  unfold submitTask. split; intros H.
  - destruct (Nat.leb_spec (taskQueueSize cfg) (length (taskQueue s))); [done|lia].
  - destruct (Nat.leb_spec (taskQueueSize cfg) (length (taskQueue s))); [lia|].
    match goal with |- context [processQueue cfg now ?x] =>
      destruct (processQueue_settles cfg now x) as [s2 ->] end.
    by exists s2.
Qed.

(** ** Identifiers the orchestrator knows *)

Section Tracked.

Variable cfg : Config.

Lemma maps_within_same ids s s' :
  activeTasks s' = activeTasks s → results s' = results s →
  maps_within ids s → maps_within ids s'.
Proof. unfold maps_within. by intros -> ->. Qed.

Lemma within_mono ids ids' s : ids ⊆ ids' → within ids s → within ids' s.
Proof.
  intros Hsub [Hq [Ha Hr]]. rewrite elem_of_subseteq in Hsub. split; [|split].
  - eapply Forall_impl; [exact Hq|]. intros t Ht. by apply Hsub.
  - intros k t Hk. destruct (Ha k t Hk). split; by apply Hsub.
  - intros k Hk. by apply Hsub, Hr.
Qed.

Lemma getOrCreateWorker_data now ty s workerId s1 :
  getOrCreateWorker cfg now ty s = Some (workerId, s1) →
  taskQueue s1 = taskQueue s ∧ activeTasks s1 = activeTasks s ∧ results s1 = results s.
Proof.
  intros H.
  destruct (getOrCreateWorker_cases _ _ _ _ _ _ H) as [->|[[w ->]|[_ Hc]]]; [done|done|].
  unfold createWorker in Hc. by injection Hc as _ ->.
Qed.

Lemma executeTask_resume_within ids now task workerId s :
  task_id task ∈ ids → maps_within ids s →
  maps_within ids (executeTask_resume now task workerId s).
Proof.
  intros Ht [Ha Hr]. split.
  - rewrite executeTask_resume_activeTasks. intros k t.
    rewrite lookup_insert_Some. intros [[<- <-]|[_ Hk]]; [done|by apply Ha].
  - by rewrite executeTask_resume_results.
Qed.

Lemma processQueue_loop_within ids now q : ∀ s s',
  processQueue_loop cfg now q s = Some s' →
  queue_within ids q → maps_within ids s → within ids s'.
Proof.
  induction q as [|task rest IH]; intros s s'; simpl.
  - intros [= <-] Hq Hm. split; [by apply Forall_nil|done].
  - destruct (canSpawnWorker cfg s); [|by intros [= <-] Hq Hm].
    unfold executeTask.
    destruct (getOrCreateWorker cfg now (task_type task) (with_taskQueue rest s))
      as [[workerId s1]|] eqn:Hg; [|done].
    intros Hl Hq Hm. apply Forall_cons in Hq as [Ht Hq].
    destruct (getOrCreateWorker_data _ _ _ _ _ Hg) as (_ & Ha1 & Hr1).
    eapply IH; [exact Hl|exact Hq|].
    apply executeTask_resume_within; [exact Ht|].
    by apply (maps_within_same ids s).
Qed.

Lemma processQueue_within ids now s s' :
  processQueue cfg now s = Some s' → within ids s → within ids s'.
Proof. intros H [Hq Hm]. by eapply processQueue_loop_within. Qed.

Lemma held_task_Some worker s task :
  held_task worker s = Some task →
  ∃ c, w_currentTask worker = Some c ∧ c ≠ EmptyString ∧ activeTasks s !! c = Some task.
Proof.
  unfold held_task, truthy_string.
  destruct (w_currentTask worker) as [c|]; [|done].
  destruct (bool_decide_reflect (c = EmptyString)); [done|]. simpl. intros H. by exists c.
Qed.

Lemma failTask_within ids worker message task s :
  held_task worker s = Some task →
  within ids s → within ids (failTask worker message task s).
Proof.
  intros Hh [Hq [Ha Hr]].
  destruct (held_task_Some _ _ _ Hh) as (c & _ & _ & Hc).
  destruct (Ha c task Hc) as [_ Hid].
  assert (maps_within ids
            (with_activeTasks (delete (task_id task) (activeTasks s))
               (with_results
                  (<[task_id task :=
                       {| r_taskId := task_id task; r_success := false; r_data := None;
                          r_error := Some message; r_duration := 0 |}]> (results s)) s)))
    as Hm.
  { split; simpl.
    - intros k t. rewrite lookup_delete_Some. intros [_ Hk]. by apply Ha.
    - intros k. rewrite lookup_insert_is_Some. intros [<-|[_ Hk]]; [done|by apply Hr]. }
  unfold failTask. destruct (retry_wanted _ _); (split; [|exact Hm]); simpl.
  - by apply Forall_cons.
  - exact Hq.
Qed.

Lemma handleTaskError_within ids now worker message s s' :
  handleTaskError cfg now worker message s = Some s' →
  within ids s → within ids s'.
Proof.
  unfold handleTaskError. destruct (held_task worker s) as [task|] eqn:Hh;
    [|by intros [= <-]].
  intros Hp Hw. eapply processQueue_within; [exact Hp|].
  by apply failTask_within.
Qed.

Lemma terminateWorker_data workerId s :
  taskQueue (terminateWorker workerId s) = taskQueue s ∧
  activeTasks (terminateWorker workerId s) = activeTasks s ∧
  results (terminateWorker workerId s) = results s.
Proof. unfold terminateWorker. by destruct (workers_get _ _). Qed.

Lemma considerScaleDown_data later worker s :
  taskQueue (considerScaleDown cfg later worker s) = taskQueue s ∧
  activeTasks (considerScaleDown cfg later worker s) = activeTasks s ∧
  results (considerScaleDown cfg later worker s) = results s.
Proof.
  unfold considerScaleDown.
  destruct (_ <=? _)%nat; [done|]. destruct (_ <? _)%nat; [done|].
  destruct (_ <? _); [|done]. apply terminateWorker_data.
Qed.

Lemma processQueue_begin_data now s suspended s1 :
  processQueue_begin cfg now s = Some (suspended, s1) →
  activeTasks s1 = activeTasks s ∧ results s1 = results s ∧
  match suspended with
  | Some (task, _) => taskQueue s = task :: taskQueue s1
  | None => taskQueue s1 = taskQueue s
  end.
Proof.
  unfold processQueue_begin. destruct (taskQueue s) as [|task rest] eqn:Hq.
  - intros [= <- <-]. by rewrite Hq.
  - destruct (canSpawnWorker cfg s); [|intros [= <- <-]; by rewrite Hq].
    destruct (getOrCreateWorker cfg now (task_type task) (with_taskQueue rest s))
      as [[workerId s2]|] eqn:Hg; [|done].
    intros [= <- <-].
    destruct (getOrCreateWorker_data _ _ _ _ _ Hg) as (Hq2 & Ha2 & Hr2).
    simpl in *. by rewrite Hq2, Ha2, Hr2.
Qed.

Lemma handleComplete_within ids now later worker result duration s s' :
  handleComplete cfg now later worker result duration s = Some s' →
  within ids s → within ids s'.
Proof.
  unfold handleComplete. destruct (held_task worker s) as [task|] eqn:Hh;
    [|by intros [= <-]].
  destruct (held_task_Some _ _ _ Hh) as (c & _ & _ & Hc).
  match goal with |- context [processQueue_begin cfg now ?x] =>
    set (s4 := x); destruct (processQueue_begin cfg now s4) as [[suspended s5]|] eqn:Hb5 end;
    [|done].
  intros H [Hq [Ha Hr]].
  destruct (Ha c task Hc) as [_ Hid].
  assert (within ids s4) as [Hq4 Hm4].
  { split; [exact Hq|]. split; simpl.
    - intros k t. rewrite lookup_delete_Some. intros [_ Hk]. by apply Ha.
    - intros k. rewrite lookup_insert_is_Some. intros [<-|[_ Hk]]; [done|by apply Hr]. }
  destruct (processQueue_begin_data _ _ _ _ Hb5) as (Ha5 & Hr5 & Hq5).
  set (s6 := if enableAutoScaling cfg then considerScaleDown cfg later worker s5 else s5)
    in H.
  assert (taskQueue s6 = taskQueue s5 ∧ activeTasks s6 = activeTasks s5 ∧
          results s6 = results s5) as (Hq6 & Ha6 & Hr6).
  { unfold s6. destruct (enableAutoScaling cfg); [apply considerScaleDown_data|done]. }
  assert (maps_within ids s6) as Hm6.
  { apply (maps_within_same ids s4); [congruence|congruence|exact Hm4]. }
  destruct suspended as [[next workerId]|].
  - rewrite Hq5 in Hq4. apply Forall_cons in Hq4 as [Hn Hq4].
    eapply processQueue_within; [exact H|]. split.
    + rewrite executeTask_resume_taskQueue, Hq6. exact Hq4.
    + by apply executeTask_resume_within.
  - injection H as <-. split; [|exact Hm6]. rewrite Hq6, Hq5. exact Hq4.
Qed.

Lemma terminateTask_within ids taskId reason s :
  within ids s → within ids (terminateTask taskId reason s).
Proof.
  unfold terminateTask. intros [Hq [Ha Hr]].
  destruct (activeTasks s !! taskId) as [task|] eqn:Ht; [|done].
  destruct (find _ (workers s)); [|done].
  destruct (Ha taskId task Ht) as [Hid _].
  split; [exact Hq|]. split; simpl.
  - intros k t. rewrite lookup_delete_Some. intros [_ Hk]. by apply Ha.
  - intros k. rewrite lookup_insert_is_Some. intros [<-|[_ Hk]]; [done|by apply Hr].
Qed.

Lemma step_within ids s now i s' :
  step cfg s now i = Some s' →
  within ids s → within (submitted_ids [(now, i)] ∪ ids) s'.
Proof.
  destruct i as [task rnd|workerId m later|workerId message|workerId code|taskId]; simpl.
  - unfold submitTask. destruct (_ <=? _)%nat.
    { intros [= <-] Hw. apply (within_mono ids); [set_solver|exact Hw]. }
    match goal with |- context [processQueue cfg now ?x] =>
      destruct (processQueue cfg now x) as [s2|] eqn:Hp end; [|done].
    intros [= <-] Hw. eapply processQueue_within; [exact Hp|].
    apply (within_mono ids ({[make_taskId now rnd]} ∪ ∅ ∪ ids)) in Hw as [Hq Hm];
      [|set_solver].
    split; [|exact Hm]. simpl. apply Forall_app. split; [exact Hq|].
    apply Forall_singleton. simpl. set_solver.
  - intros H Hw. apply (within_mono ids); [set_solver|].
    revert H. unfold handleWorkerMessage.
    destruct (workers_get workerId (workers s)) as [w|]; [|by intros [= <-]].
    destruct m as [tid c t msg|tid result duration|tid msg|ty].
    + intros [= <-]. unfold handleProgress. by destruct (held_task _ _).
    + intros H. eapply handleComplete_within; [exact H|exact Hw].
    + intros H. eapply handleTaskError_within; [exact H|exact Hw].
    + by intros [= <-].
  - intros H Hw. apply (within_mono ids); [set_solver|].
    revert H. unfold handleWorkerError.
    destruct (workers_get workerId (workers s)) as [w|]; [|by intros [= <-]].
    destruct (truthy_string _); [|by intros [= <-]].
    intros H. eapply handleTaskError_within; [exact H|exact Hw].
  - intros H Hw. apply (within_mono ids); [set_solver|].
    revert H. unfold handleWorkerExit.
    destruct (workers_get workerId (workers s)) as [w|]; [|by intros [= <-]].
    destruct (truthy_string _); [|by intros [= <-]].
    intros H. eapply handleTaskError_within; [exact H|exact Hw].
  - intros [= <-] Hw. apply (within_mono ids); [set_solver|].
    unfold timerFired. destruct (activeTasks s !! taskId); [|done].
    by apply terminateTask_within.
Qed.

Lemma submitted_ids_cons now i l :
  submitted_ids ((now, i) :: l) = submitted_ids [(now, i)] ∪ submitted_ids l.
Proof.
  destruct i; simpl; [by rewrite (right_id_L ∅ (∪))|by rewrite (left_id_L ∅ (∪))..].
Qed.

Lemma run_within l : ∀ ids s s',
  run cfg s l = Some s' → within ids s → within (submitted_ids l ∪ ids) s'.
Proof.
  induction l as [|[now i] l IH]; intros ids s s'.
  - intros [= <-] Hw. apply (within_mono ids); [set_solver|exact Hw].
  - cbn [run]. destruct (step cfg s now i) as [s1|] eqn:Hs; [|done].
    intros Hr Hw. apply (step_within ids) in Hs; [|exact Hw].
    apply (IH _ _ _ Hr) in Hs. revert Hs. apply within_mono.
    rewrite (submitted_ids_cons now i l). apply elem_of_subseteq. intros x.
    rewrite !elem_of_union. tauto.
Qed.

Lemma within_initial : within ∅ initial.
Proof.
  split; [by apply Forall_nil|]. split; simpl.
  - intros k t. by rewrite lookup_empty.
  - intros k. rewrite lookup_empty. intros Hk. by apply is_Some_None in Hk.
Qed.

Lemma getTaskStatus_untracked s taskId :
  untracked s taskId → getTaskStatus s taskId = unknown.
Proof.
  intros (Hq & Ha & Hr). unfold getTaskStatus.
  destruct (existsb _ (taskQueue s)) eqn:He.
  - apply existsb_exists in He as (t & Hin & Ht).
    apply bool_decide_eq_true in Ht.
    rewrite Forall_forall in Hq. apply list_elem_of_In in Hin. by destruct (Hq t Hin).
  - rewrite Ha, Hr. rewrite bool_decide_eq_false_2; [done|]. by intros [? ?].
Qed.

Lemma within_untracked ids s taskId :
  within ids s → taskId ∉ ids → untracked s taskId.
Proof.
  intros [Hq [Ha Hr]] Hn. split; [|split].
  - eapply Forall_impl; [exact Hq|]. simpl. intros t Ht Heq. by rewrite Heq in Ht.
  - destruct (activeTasks s !! taskId) as [t|] eqn:Ht; [|done].
    by destruct (Ha _ _ Ht).
  - destruct (results s !! taskId) as [r|] eqn:Ht; [|done].
    destruct Hn. apply Hr. by rewrite Ht.
Qed.

End Tracked.

(** C9. In every state reached from the start, [getTaskStatus] of an
    identifier that no call of [submitTask] gave out, or that the
    orchestrator holds nowhere (not in the queue, not active, without
    result), is [unknown].  [getTaskStatus] is a function of the state: it
    returns for every input and writes nothing. *)
Theorem getTaskStatus_unknown_id (cfg : Config) (l : list (Z * Input))
    (s : State) (taskId : string) :
  run cfg initial l = Some s →
  taskId ∉ submitted_ids l ∨ untracked s taskId →
  getTaskStatus s taskId = unknown.
Proof.
  intros Hr [Hn|Hu]; apply getTaskStatus_untracked; [|exact Hu].
  apply (within_untracked (submitted_ids l ∪ ∅)).
  - eapply run_within; [exact Hr|apply within_initial].
  - by rewrite (right_id_L ∅ (∪)).
Qed.

(** ** What is written to the result store *)

Section ResultStore.

Variable cfg : Config.

Lemma writes_only_new P s s' k r :
  writes_only P s s' →
  results s' !! k = Some r → results s !! k ≠ Some r → P r.
Proof.
  intros [Heq|(k' & r' & Heq & HP)]; rewrite Heq; [done|].
  rewrite lookup_insert_Some. intros [[_ <-]|[_ Hk]]; done.
Qed.

Lemma processQueue_loop_data now q : ∀ s s',
  processQueue_loop cfg now q s = Some s' → results s' = results s.
Proof.
  induction q as [|task rest IH]; intros s s'; simpl.
  - by intros [= <-].
  - destruct (canSpawnWorker cfg s); [|by intros [= <-]].
    unfold executeTask.
    destruct (getOrCreateWorker cfg now (task_type task) (with_taskQueue rest s))
      as [[workerId s1]|] eqn:Hg; [|done].
    intros Hl. rewrite (IH _ _ Hl), executeTask_resume_results.
    by destruct (getOrCreateWorker_data _ _ _ _ _ _ Hg) as (_ & _ & ->).
Qed.

Lemma processQueue_results now s s' :
  processQueue cfg now s = Some s' → results s' = results s.
Proof. apply processQueue_loop_data. Qed.

Lemma failTask_results worker message task s :
  results (failTask worker message task s)
  = <[task_id task :=
        {| r_taskId := task_id task; r_success := false; r_data := None;
           r_error := Some message; r_duration := 0 |}]> (results s).
Proof. unfold failTask. by destruct (retry_wanted _ _). Qed.

Lemma handleTaskError_writes now worker message s s' :
  handleTaskError cfg now worker message s = Some s' →
  writes_only failed_result s s'.
Proof.
  unfold handleTaskError. destruct (held_task worker s) as [task|];
    [|intros [= <-]; by left].
  intros Hp. right. eexists _, _.
  split; [by rewrite (processQueue_results _ _ _ Hp), failTask_results|by split].
Qed.

Lemma handleComplete_writes now later worker result duration s s' :
  handleComplete cfg now later worker result duration s = Some s' →
  writes_only (completed_result duration) s s'.
Proof.
  unfold handleComplete. destruct (held_task worker s) as [task|];
    [|intros [= <-]; by left].
  match goal with |- context [processQueue_begin cfg now ?x] =>
    set (s4 := x); destruct (processQueue_begin cfg now s4) as [[suspended s5]|] eqn:Hb5 end;
    [|done].
  destruct (processQueue_begin_data _ _ _ _ _ Hb5) as (_ & Hr5 & _).
  set (s6 := if enableAutoScaling cfg then considerScaleDown cfg later worker s5 else s5).
  assert (results s6 = results s5) as Hr6.
  { unfold s6. destruct (enableAutoScaling cfg); [apply considerScaleDown_data|done]. }
  intros H. right.
  assert (results s' = results s4) as ->.
  { destruct suspended as [[next workerId]|].
    - by rewrite (processQueue_results _ _ _ H), executeTask_resume_results, Hr6, Hr5.
    - injection H as <-. by rewrite Hr6, Hr5. }
  eexists _, _. split; [reflexivity|by split].
Qed.

Lemma terminateTask_writes taskId reason s :
  writes_only failed_result s (terminateTask taskId reason s).
Proof.
  unfold terminateTask. destruct (activeTasks s !! taskId); [|by left].
  destruct (find _ (workers s)); [|by left].
  right. eexists _, _. split; [reflexivity|by split].
Qed.

End ResultStore.

(** C10. A result that a callback writes to the result store is of one of
    two kinds.  Written on an error message, on the failure or the exit of a
    worker, or on a timeout, it has [success = false] and [duration = 0],
    whatever time the task has run.  Written on a completion message, it has
    [success = true] and the duration the worker reported.  A submission or
    a progress message writes none. *)
Theorem failed_results_have_duration_zero (cfg : Config) (s s' : State)
    (now : Z) (i : Input) (taskId : string) (r : WorkerResult) :
  step cfg s now i = Some s' →
  results s' !! taskId = Some r →
  results s !! taskId ≠ Some r →
  match i with
  | Message _ (MsgComplete _ _ duration) _ =>
      r_success r = true ∧ r_duration r = duration
  | Message _ (MsgError _ _) _ | WorkerFailed _ _ | WorkerExit _ _ | TimerFired _ =>
      r_success r = false ∧ r_duration r = 0
  | Submit _ _ | Message _ (MsgProgress _ _ _ _) _ | Message _ (MsgOther _) _ => False
  end.
Proof.
  intros Hs Hnew Hold.
  destruct i as [task rnd|workerId m later|workerId message|workerId code|tid];
    simpl in Hs.
  - unfold submitTask in Hs. destruct (_ <=? _)%nat.
    { injection Hs as <-. done. }
    match type of Hs with context [processQueue cfg now ?x] =>
      destruct (processQueue cfg now x) as [s2|] eqn:Hp end; [|done].
    injection Hs as <-. rewrite (processQueue_results _ _ _ _ Hp) in Hnew. done.
  - unfold handleWorkerMessage in Hs.
    destruct (workers_get workerId (workers s)) as [w|];
      [|injection Hs as <-; destruct m; done].
    destruct m as [tid c t msg|tid result duration|tid msg|ty].
    + injection Hs as <-. unfold handleProgress in Hnew.
      destruct (held_task _ _); done.
    + apply handleComplete_writes in Hs.
      exact (writes_only_new _ _ _ _ _ Hs Hnew Hold).
    + apply handleTaskError_writes in Hs.
      exact (writes_only_new _ _ _ _ _ Hs Hnew Hold).
    + injection Hs as <-. done.
  - unfold handleWorkerError in Hs.
    destruct (workers_get workerId (workers s)) as [w|]; [|injection Hs as <-; done].
    destruct (truthy_string _); [|injection Hs as <-; done].
    apply handleTaskError_writes in Hs.
    exact (writes_only_new _ _ _ _ _ Hs Hnew Hold).
  - unfold handleWorkerExit in Hs.
    destruct (workers_get workerId (workers s)) as [w|]; [|injection Hs as <-; done].
    destruct (truthy_string _); [|injection Hs as <-; done].
    apply handleTaskError_writes in Hs.
    exact (writes_only_new _ _ _ _ _ Hs Hnew Hold).
  - injection Hs as <-. unfold timerFired in Hnew.
    destruct (activeTasks s !! tid); [|done].
    exact (writes_only_new _ _ _ _ _ (terminateTask_writes tid "timeout" s) Hnew Hold).
Qed.

(** ** The order of dispatch *)

Lemma dispatched_emit e s :
  dispatched (emit e s)
  = (dispatched s ++ match e with taskStarted t => [t] | _ => [] end)%list.
Proof. unfold dispatched. simpl. rewrite omap_app. by destruct e. Qed.

Lemma getOrCreateWorker_dispatched cfg now ty s workerId s1 :
  getOrCreateWorker cfg now ty s = Some (workerId, s1) → dispatched s1 = dispatched s.
Proof.
  intros H.
  destruct (getOrCreateWorker_cases _ _ _ _ _ _ H) as [->|[[w ->]|[_ Hc]]]; [done|done|].
  unfold createWorker in Hc. injection Hc as _ ->.
  rewrite dispatched_emit. by rewrite app_nil_r.
Qed.

Lemma executeTask_resume_dispatched now task workerId s :
  dispatched (executeTask_resume now task workerId s) = (dispatched s ++ [task])%list.
Proof.
  unfold executeTask_resume.
  destruct (task_timeout task) as [ms|]; [destruct (ms =? 0)|];
    rewrite !dispatched_emit; by rewrite ?app_nil_r.
Qed.

(** [processQueue] starts a front piece of the queue, in the order of the
    queue, and leaves the rest: no field of a task has a say in it. *)
Lemma processQueue_loop_fifo cfg now q : ∀ s s',
  processQueue_loop cfg now q s = Some s' →
  ∃ started, q = (started ++ taskQueue s')%list ∧
             dispatched s' = (dispatched s ++ started)%list.
Proof.
  induction q as [|task rest IH]; intros s s'; simpl.
  - intros [= <-]. exists []. split; [done|]. unfold dispatched. simpl. by rewrite app_nil_r.
  - destruct (canSpawnWorker cfg s).
    2:{ intros [= <-]. exists []. split; [done|]. unfold dispatched. simpl. by rewrite app_nil_r. }
    unfold executeTask.
    destruct (getOrCreateWorker cfg now (task_type task) (with_taskQueue rest s))
      as [[workerId s1]|] eqn:Hg; [|done].
    intros Hl. destruct (IH _ _ Hl) as (started & Hq & Hd).
    exists (task :: started). split; [by rewrite Hq|].
    rewrite Hd, executeTask_resume_dispatched, (getOrCreateWorker_dispatched _ _ _ _ _ _ Hg).
    by rewrite <- app_assoc.
Qed.

Lemma processQueue_fifo cfg now s s' :
  processQueue cfg now s = Some s' →
  ∃ started, taskQueue s = (started ++ taskQueue s')%list ∧
             dispatched s' = (dispatched s ++ started)%list.
Proof. apply processQueue_loop_fifo. Qed.

(** With [maxWorkers] workers in the pool [processQueue] does nothing,
    whatever the workers are doing. *)
Lemma processQueue_stalls_at_maxWorkers cfg now s :
  canSpawnWorker cfg s = false → processQueue cfg now s = Some s.
Proof.
  intros Hc. unfold processQueue. destruct s as [ws q a r n e]. simpl.
  destruct q as [|task rest]; simpl; [done|].
  unfold canSpawnWorker in *. simpl in *. by rewrite Hc.
Qed.

(** C1. The queue takes no account of priorities.  A pool of one worker is
    busy with X while A (priority 1), B (priority 5) and C (priority 1) are
    submitted in this order; each time the worker exits, the head of the
    queue is started on a new worker.  The tasks are started in the order
    X, A, B, C: A goes before B, which has the higher priority and was
    queued together with it. *)
Example dispatch_ignores_priority :
  map (λ t, (task_description t, task_priority t))
      (dispatched (after pool_of_one
         [(1000, Submit (plain_task "X" 1) "x");
          (1001, Submit (plain_task "A" 1) "a");
          (1002, Submit (plain_task "B" 5) "b");
          (1003, Submit (plain_task "C" 1) "c");
          (2000, WorkerExit 1 1);
          (3000, WorkerExit 2 1);
          (4000, WorkerExit 3 1)]))
  = [("X", 1); ("A", 1); ("B", 5); ("C", 1)].
Proof. vm_compute. reflexivity. Qed.

(** C2. A pool of one worker: A is started on worker 1, B is queued behind
    it.  When worker 1 reports the completion of A it is idle, and B stays
    in the queue: [processQueue] starts nothing while the pool holds
    [maxWorkers] workers, idle or not. *)
Example queued_task_left_with_idle_worker :
  let s := after pool_of_one
             [(1000, Submit (plain_task "A" 1) "a");
              (1001, Submit (plain_task "B" 1) "b");
              (2000, Message 1 (MsgComplete "task_1000_a" "done" 1000) 2000)] in
  map (λ w, (w_id w, w_status w, w_currentTask w)) (workers s) = [(1%nat, WsIdle, None)] ∧
  map task_description (taskQueue s) = ["B"] ∧
  getTaskStatus s "task_1000_a" = completed ∧
  getTaskStatus s "task_1001_b" = queued ∧
  map task_description (dispatched s) = ["A"].
Proof. vm_compute. repeat split; reflexivity. Qed.

(** ** Retries *)


(** ** Timeouts *)

Lemma workers_get_mutate workerId f ws :
  (∀ w, w_id (f w) = w_id w) →
  workers_get workerId (workers_mutate workerId f ws) = f <$> workers_get workerId ws.
Proof.
  intros Hf. unfold workers_get, workers_mutate.
  induction ws as [|w rest IH]; simpl; [done|].
  destruct (decide (w_id w = workerId)) as [Heq|Hne].
  - rewrite !bool_decide_eq_true_2; [done|done|by rewrite Hf].
  - rewrite !bool_decide_eq_false_2; done.
Qed.

Lemma getTaskStatus_running s taskId :
  getTaskStatus s taskId = running →
  existsb (λ t, bool_decide (task_id t = taskId)) (taskQueue s) = false ∧
  is_Some (activeTasks s !! taskId).
Proof.
  unfold getTaskStatus. destruct (existsb _ _); [done|].
  destruct (bool_decide_reflect (is_Some (activeTasks s !! taskId))); [done|].
  destruct (results s !! taskId) as [r|]; [by destruct (r_success r)|done].
Qed.

(** C6, as stated, fails: [getTaskStatus] has no status for a terminated
    task.  A task stopped by its timer and a task whose handler reported an
    error are both reported as [error]. *)
Lemma timeout_status_counterexample :
  let timed_out := after pool_of_one
                     [(1000, Submit (with_timeout 100 (plain_task "T" 1)) "t");
                      (1100, TimerFired "task_1000_t")] in
  let errored := after pool_of_one
                   [(1000, Submit (plain_task "T" 1) "t");
                    (1100, Message 1 (MsgError "task_1000_t" "boom") 1100)] in
  getTaskStatus timed_out "task_1000_t" = error ∧
  getTaskStatus errored "task_1000_t" = error ∧
  ¬ (getTaskStatus timed_out "task_1000_t" ≠ getTaskStatus errored "task_1000_t").
Proof. vm_compute. split; [reflexivity|]. split; [reflexivity|]. intros H. by apply H. Qed.

(** [terminateTask] on a running task that a worker holds, in any state in
    which the map gives that worker for its identifier. *)
Lemma timerFired_of_held_task (s : State) (taskId : string)
    (worker : WorkerInstance) :
  getTaskStatus s taskId = running →
  find (λ w, bool_decide (w_currentTask w = Some taskId)) (workers s) = Some worker →
  workers_get (w_id worker) (workers s) = Some worker →
  let s' := timerFired taskId s in
  getTaskStatus s' taskId = error ∧
  getResult s' taskId
  = Some {| r_taskId := taskId; r_success := false; r_data := None;
            r_error := Some "Task terminated: timeout"; r_duration := 0 |} ∧
  workers_get (w_id worker) (workers s')
  = Some (set_status WsIdle (set_currentTask None worker)) ∧
  emitted s'
  = (emitted s ++ [postTerminate (w_id worker) taskId;
                   taskTerminated taskId "timeout"])%list.
Proof.
  intros Hrun Hfind Hget s'.
  destruct (getTaskStatus_running _ _ Hrun) as [Hq [task Ha]].
  assert (s' = emit (taskTerminated taskId "timeout")
                 (mutate (w_id worker) (λ w, set_status WsIdle (set_currentTask None w))
                    (with_activeTasks (delete taskId (activeTasks s))
                       (with_results
                          (<[taskId := {| r_taskId := taskId; r_success := false;
                                          r_data := None;
                                          r_error := Some "Task terminated: timeout";
                                          r_duration := 0 |}]> (results s))
                          (emit (postTerminate (w_id worker) taskId) s))))) as ->.
  { unfold s', timerFired, terminateTask. by rewrite Ha, Hfind. }
  split; [|split; [|split]].
  - unfold getTaskStatus. simpl. rewrite Hq, lookup_delete_eq, lookup_insert_eq.
    rewrite bool_decide_eq_false_2; [done|]. by intros [x Hx].
  - unfold getResult. simpl. apply lookup_insert_eq.
  - simpl. rewrite workers_get_mutate; [|done]. by rewrite Hget.
  - simpl. by rewrite <- app_assoc.
Qed.

(** ** Late messages *)

(** A completion or error message of a worker that holds no task changes
    nothing but the time of the worker's last activity; the message of a
    worker that is no longer in the pool changes nothing. *)
Lemma message_without_held_task cfg now later workerId m w s :
  (∃ taskId result duration, m = MsgComplete taskId result duration) ∨
  (∃ taskId message, m = MsgError taskId message) →
  workers_get workerId (workers s) = Some w →
  truthy_string (w_currentTask w) = false →
  handleWorkerMessage cfg now later workerId m s
  = Some (mutate workerId (set_lastActivity now) s).
Proof.
  intros Hm Hw Ht. unfold handleWorkerMessage. rewrite Hw.
  destruct Hm as [(taskId & result & duration & ->)|(taskId & message & ->)].
  - unfold handleComplete, held_task. simpl. by rewrite Ht.
  - unfold handleTaskError, held_task. simpl. by rewrite Ht.
Qed.

Lemma message_of_absent_worker cfg now later workerId m s :
  workers_get workerId (workers s) = None →
  handleWorkerMessage cfg now later workerId m s = Some s.
Proof. intros Hw. unfold handleWorkerMessage. by rewrite Hw. Qed.

(** C7. The message handlers take the task from [worker.currentTask] and do
    not look at the identifier in the message.  T1 runs on worker 1 and is
    stopped by its timer; T2 is then started on worker 1, which is idle
    again.  A completion message for T1 that arrives now is taken for T2:
    T2, still running, is recorded as completed with the result and the
    duration of T1, and worker 1 is set idle with one task completed. *)
Example late_completion_is_attributed_to_next_task :
  let earlier := [(1000, Submit (with_timeout 100 (plain_task "T1" 1)) "a");
                  (1100, TimerFired "task_1000_a");
                  (1101, Submit (plain_task "T2" 1) "b")] in
  let before := after pool_of_two earlier in
  let s := after pool_of_two
             (earlier ++ [(1102, Message 1 (MsgComplete "task_1000_a" "late" 101) 1102)])%list in
  (getTaskStatus before "task_1000_a" = error ∧
   map w_currentTask (workers before) = [Some "task_1101_b"] ∧
   getTaskStatus before "task_1101_b" = running ∧
   getResult before "task_1101_b" = None) ∧
  (getTaskStatus s "task_1101_b" = completed ∧
   getResult s "task_1101_b"
   = Some {| r_taskId := "task_1101_b"; r_success := true; r_data := Some "late";
             r_error := None; r_duration := 101 |} ∧
   map (λ w, (w_status w, w_currentTask w, w_tasksCompleted w)) (workers s)
   = [(WsIdle, None, 1%nat)]).
Proof. vm_compute. repeat split; reflexivity. Qed.

(** ** Failing workers *)

Lemma workers_get_delete workerId ws :
  workers_get workerId (workers_delete workerId ws) = None.
Proof.
  unfold workers_get, workers_delete.
  induction ws as [|w rest IH]; [done|].
  rewrite filter_cons. destruct (decide (w_id w ≠ workerId)) as [Hne|Heq]; [|done].
  simpl. by rewrite bool_decide_eq_false_2.
Qed.

(** On the [exit] event of a worker that holds a task the worker is out of
    the pool, and the task has its failed result, before the queue is
    processed. *)
Lemma exited_worker_is_removed cfg now workerId code worker task s :
  workers_get workerId (workers s) = Some worker →
  held_task worker s = Some task →
  ∃ s1, handleWorkerExit cfg now workerId code s = processQueue cfg now s1 ∧
        workers_get workerId (workers s1) = None ∧
        getResult s1 (task_id task)
        = Some {| r_taskId := task_id task; r_success := false; r_data := None;
                  r_error := Some ("Worker exited with code " +:+ pretty code);
                  r_duration := 0 |}.
Proof.
  intros Hget Hheld.
  assert (w_id worker = workerId) as Hid.
  { unfold workers_get in Hget. apply find_some in Hget as [_ Hb].
    by apply bool_decide_eq_true in Hb. }
  eexists. split; [|split].
  - unfold handleWorkerExit. rewrite Hget.
    assert (truthy_string (w_currentTask worker) = true) as ->.
    { unfold held_task in Hheld. by destruct (truthy_string _). }
    unfold handleTaskError.
    assert (held_task worker
              (emit (workerExited workerId code)
                 (with_workers (workers_delete workerId (workers s)) s)) = Some task)
      as -> by exact Hheld.
    reflexivity.
  - unfold failTask. rewrite Hid.
    destruct (retry_wanted _ _); simpl;
      rewrite !workers_get_mutate, workers_get_delete; done.
  - unfold getResult. rewrite failTask_results. apply lookup_insert_eq.
Qed.

(** C8. On the [error] event of a worker thread that holds a task,
    [handleWorkerError] sets the status [error], and [handleTaskError], which
    it calls for the held task, sets it back to [idle]: the failed worker
    stays in the pool as an idle worker, and the task submitted next is
    started on it. *)
Example failed_worker_stays_idle_in_pool :
  let crash := [(1000, Submit (plain_task "T" 1) "a");
                (1100, WorkerFailed 1 "crash")] in
  let s := after pool_of_two crash in
  let next := after pool_of_two (crash ++ [(1200, Submit (plain_task "U" 1) "b")])%list in
  getTaskStatus s "task_1000_a" = error ∧
  map (λ w, (w_id w, w_status w, w_currentTask w)) (workers s) = [(1%nat, WsIdle, None)] ∧
  map (λ w, (w_id w, w_status w, w_currentTask w)) (workers next)
  = [(1%nat, WsRunning, Some "task_1200_b")].
Proof. vm_compute. repeat split; reflexivity. Qed.

(** ** Instances *)

(** C4 at a queue of capacity one, full and empty. *)
Lemma submitTask_capacity_witness :
  let tiny := {| maxWorkers := 1; enableAutoScaling := true; idleTimeout := 300000;
                 taskQueueSize := 1 |} in
  let full := with_taskQueue [plain_task "A" 1] initial in
  submitTask tiny 1000 "x" (plain_task "B" 1) full
  = Some (Rejected "Task queue full (1)", full) ∧
  ∃ s', submitTask tiny 1000 "x" (plain_task "B" 1) initial
        = Some (Resolved "task_1000_x", s').
Proof.
  intros tiny full. split.
  - apply (proj1 (submitTask_capacity tiny 1000 "x" (plain_task "B" 1) full)).
    simpl. lia.
  - apply (proj2 (submitTask_capacity tiny 1000 "x" (plain_task "B" 1) initial)).
    simpl. lia.
Defined.

(** C9 at the identifier of the test suite, after one submission. *)
Lemma getTaskStatus_unknown_id_witness :
  getTaskStatus (after pool_of_one [(1000, Submit (plain_task "A" 1) "a")])
    "nonexistent_task" = unknown.
Proof.
  apply (getTaskStatus_unknown_id pool_of_one
           [(1000, Submit (plain_task "A" 1) "a")] _ "nonexistent_task").
  - apply after_run.
  - left. simpl. rewrite elem_of_union, elem_of_singleton.
    intros [H|H]; [discriminate H|by apply not_elem_of_empty in H].
Defined.

(** C10 at the error message of a task that has run on worker 1. *)
Lemma failed_results_have_duration_zero_witness :
  let s := after pool_of_one [(1000, Submit (plain_task "T" 1) "t")] in
  let r := {| r_taskId := "task_1000_t"; r_success := false; r_data := None;
              r_error := Some "boom"; r_duration := 0 |} in
  getResult (after pool_of_one
               [(1000, Submit (plain_task "T" 1) "t");
                (5000, Message 1 (MsgError "task_1000_t" "boom") 5000)])
    "task_1000_t" = Some r ∧
  r_success r = false ∧ r_duration r = 0.
Proof.
  intros s r. split; [vm_compute; reflexivity|].
  apply (failed_results_have_duration_zero pool_of_one s
           (after pool_of_one
              [(1000, Submit (plain_task "T" 1) "t");
               (5000, Message 1 (MsgError "task_1000_t" "boom") 5000)])
           5000 (Message 1 (MsgError "task_1000_t" "boom") 5000) "task_1000_t" r).
  - vm_compute. reflexivity.
  - vm_compute. reflexivity.
  - vm_compute. discriminate.
Defined.

(** ** Properties of the pool kept by every callback *)

Lemma executeTask_resume_nextWorkerId now task workerId s :
  nextWorkerId (executeTask_resume now task workerId s) = nextWorkerId s.
Proof.
  unfold executeTask_resume.
  destruct (task_timeout task) as [ms|]; [destruct (ms =? 0)|]; reflexivity.
Qed.

Section PoolInvariant.

Variable cfg : Config.
Variable J : list WorkerInstance → nat → Prop.

Hypothesis J_update : ∀ workerId f ws n,
  field_update f → J ws n → J (workers_mutate workerId f ws) n.
Hypothesis J_delete : ∀ workerId ws n, J ws n → J (workers_delete workerId ws) n.
Hypothesis J_create : ∀ now ty ws n,
  J ws n →
  J (workers_set {| w_id := n; w_type := ty; w_status := WsIdle; w_currentTask := None;
                    w_tasksCompleted := 0; w_errors := 0; w_startTime := now;
                    w_lastActivity := now |} ws) (S n).

Lemma getOrCreateWorker_inv now ty s workerId s1 :
  getOrCreateWorker cfg now ty s = Some (workerId, s1) →
  pool_inv J s → pool_inv J s1.
Proof.
  unfold pool_inv. intros H Hj.
  destruct (getOrCreateWorker_cases _ _ _ _ _ _ H) as [->|[[w ->]|[_ Hc]]]; [done| |].
  - simpl. apply J_update; [constructor|done].
  - unfold createWorker in Hc. injection Hc as _ ->. simpl. by apply J_create.
Qed.

Lemma executeTask_resume_inv now task workerId s :
  pool_inv J s → pool_inv J (executeTask_resume now task workerId s).
Proof.
  unfold pool_inv. intros Hj.
  rewrite executeTask_resume_workers, executeTask_resume_nextWorkerId.
  apply J_update; [constructor|done].
Qed.

Lemma processQueue_loop_inv now q : ∀ s s',
  processQueue_loop cfg now q s = Some s' → pool_inv J s → pool_inv J s'.
Proof.
  induction q as [|task rest IH]; intros s s'; simpl.
  - by intros [= <-].
  - destruct (canSpawnWorker cfg s); [|by intros [= <-]].
    unfold executeTask.
    destruct (getOrCreateWorker cfg now (task_type task) (with_taskQueue rest s))
      as [[workerId s1]|] eqn:Hg; [|done].
    intros Hl Hj. eapply IH; [exact Hl|].
    apply executeTask_resume_inv.
    eapply getOrCreateWorker_inv; [exact Hg|exact Hj].
Qed.

Lemma processQueue_inv now s s' :
  processQueue cfg now s = Some s' → pool_inv J s → pool_inv J s'.
Proof. apply processQueue_loop_inv. Qed.

Lemma processQueue_begin_inv now s suspended s' :
  processQueue_begin cfg now s = Some (suspended, s') →
  pool_inv J s → pool_inv J s'.
Proof.
  unfold processQueue_begin. destruct (taskQueue s) as [|task rest]; [by intros [= <- <-]|].
  destruct (canSpawnWorker cfg s); [|by intros [= <- <-]].
  destruct (getOrCreateWorker cfg now (task_type task) (with_taskQueue rest s))
    as [[workerId s1]|] eqn:Hg; [|done].
  intros [= <- <-] Hj. eapply getOrCreateWorker_inv; [exact Hg|exact Hj].
Qed.

Lemma terminateWorker_inv workerId s :
  pool_inv J s → pool_inv J (terminateWorker workerId s).
Proof.
  unfold pool_inv, terminateWorker. intros Hj.
  destruct (workers_get workerId (workers s)); [|done]. simpl. by apply J_delete.
Qed.

Lemma considerScaleDown_inv later worker s :
  pool_inv J s → pool_inv J (considerScaleDown cfg later worker s).
Proof.
  unfold considerScaleDown. intros Hj.
  destruct (_ <=? _)%nat; [done|]. destruct (_ <? _)%nat; [done|].
  destruct (_ <? _); [|done]. by apply terminateWorker_inv.
Qed.

Lemma failTask_inv worker message task s :
  pool_inv J s → pool_inv J (failTask worker message task s).
Proof.
  unfold pool_inv, failTask. intros Hj.
  destruct (retry_wanted _ _); simpl;
    (apply J_update; [constructor|]; apply J_update; [constructor|done]).
Qed.

Lemma handleTaskError_inv now worker message s s' :
  handleTaskError cfg now worker message s = Some s' →
  pool_inv J s → pool_inv J s'.
Proof.
  unfold handleTaskError. destruct (held_task worker s) as [task|]; [|by intros [= <-]].
  intros Hp Hj. eapply processQueue_inv; [exact Hp|]. by apply failTask_inv.
Qed.

Lemma handleComplete_inv now later worker result duration s s' :
  handleComplete cfg now later worker result duration s = Some s' →
  pool_inv J s → pool_inv J s'.
Proof.
  unfold handleComplete. destruct (held_task worker s) as [task|]; [|by intros [= <-]].
  match goal with |- context [processQueue_begin cfg now ?x] =>
    set (s4 := x); destruct (processQueue_begin cfg now s4) as [[suspended s5]|] eqn:Hb5 end;
    [|done].
  intros H Hj.
  assert (pool_inv J s4) as Hj4.
  { unfold pool_inv, s4. simpl. apply J_update; [constructor|done]. }
  pose proof (processQueue_begin_inv _ _ _ _ Hb5 Hj4) as Hj5.
  assert (pool_inv J (if enableAutoScaling cfg
                      then considerScaleDown cfg later worker s5 else s5)) as Hj6.
  { destruct (enableAutoScaling cfg); [by apply considerScaleDown_inv|done]. }
  destruct suspended as [[next workerId]|].
  - eapply processQueue_inv; [exact H|]. by apply executeTask_resume_inv.
  - by injection H as <-.
Qed.

Lemma terminateTask_inv taskId reason s :
  pool_inv J s → pool_inv J (terminateTask taskId reason s).
Proof.
  unfold pool_inv, terminateTask. intros Hj.
  destruct (activeTasks s !! taskId); [|done].
  destruct (find _ (workers s)); [|done]. simpl.
  apply J_update; [constructor|done].
Qed.

Lemma step_inv s now i s' :
  step cfg s now i = Some s' → pool_inv J s → pool_inv J s'.
Proof.
  destruct i as [task rnd|workerId m later|workerId message|workerId code|taskId]; simpl.
  - unfold submitTask. destruct (_ <=? _)%nat; [by intros [= <-]|].
    match goal with |- context [processQueue cfg now ?x] =>
      destruct (processQueue cfg now x) as [s2|] eqn:Hp end; [|done].
    intros [= <-] Hj. eapply processQueue_inv; [exact Hp|exact Hj].
  - unfold handleWorkerMessage.
    destruct (workers_get workerId (workers s)) as [w|]; [|by intros [= <-]].
    assert (pool_inv J s → pool_inv J (mutate workerId (set_lastActivity now) s)) as Hm.
    { unfold pool_inv. simpl. intros Hj. apply J_update; [constructor|done]. }
    destruct m as [tid c t msg|tid result duration|tid msg|ty].
    + intros [= <-] Hj. unfold handleProgress.
      destruct (held_task _ _); by apply Hm.
    + intros H Hj. eapply handleComplete_inv; [exact H|by apply Hm].
    + intros H Hj. eapply handleTaskError_inv; [exact H|by apply Hm].
    + intros [= <-] Hj. by apply Hm.
  - unfold handleWorkerError.
    destruct (workers_get workerId (workers s)) as [w|]; [|by intros [= <-]].
    assert (pool_inv J s →
            pool_inv J (emit (workerError workerId message)
                          (mutate workerId (set_status WsError) s))) as Hm.
    { unfold pool_inv. simpl. intros Hj. apply J_update; [constructor|done]. }
    destruct (truthy_string _).
    + intros H Hj. eapply handleTaskError_inv; [exact H|by apply Hm].
    + intros [= <-] Hj. by apply Hm.
  - unfold handleWorkerExit.
    destruct (workers_get workerId (workers s)) as [w|]; [|by intros [= <-]].
    assert (pool_inv J s →
            pool_inv J (emit (workerExited workerId code)
                          (with_workers (workers_delete workerId (workers s)) s))) as Hm.
    { unfold pool_inv. simpl. intros Hj. by apply J_delete. }
    destruct (truthy_string _).
    + intros H Hj. eapply handleTaskError_inv; [exact H|by apply Hm].
    + intros [= <-] Hj. by apply Hm.
  - intros [= <-] Hj. unfold timerFired.
    destruct (activeTasks s !! taskId); [|done]. by apply terminateTask_inv.
Qed.

Lemma run_inv l : ∀ s s',
  run cfg s l = Some s' → pool_inv J s → pool_inv J s'.
Proof.
  induction l as [|[now i] l IH]; intros s s'; simpl; [by intros [= <-]|].
  destruct (step cfg s now i) as [s1|] eqn:Hs; [|done].
  intros Hr Hj. eapply IH; [exact Hr|]. eapply step_inv; [exact Hs|exact Hj].
Qed.

End PoolInvariant.

Lemma field_update_id f w : field_update f → w_id (f w) = w_id w.
Proof. by destruct 1. Qed.

Lemma workers_mutate_ids workerId f ws :
  field_update f → map w_id (workers_mutate workerId f ws) = map w_id ws.
Proof.
  intros Hf. unfold workers_mutate. rewrite map_map. apply map_ext.
  intros w. destruct (decide (w_id w = workerId)); [by apply field_update_id|done].
Qed.

Lemma workers_set_fresh w ws :
  w_id w ∉ map w_id ws → workers_set w ws = (ws ++ [w])%list.
Proof.
  induction ws as [|x rest IH]; simpl; [done|].
  rewrite not_elem_of_cons. intros [Hne Hrest].
  destruct (decide (w_id x = w_id w)); [congruence|]. by rewrite IH.
Qed.

Lemma ids_fresh_update workerId f ws n :
  field_update f → ids_fresh ws n → ids_fresh (workers_mutate workerId f ws) n.
Proof.
  intros Hf [Hn Hl]. split; [by rewrite workers_mutate_ids|].
  unfold workers_mutate. rewrite Forall_map. eapply Forall_impl; [exact Hl|].
  simpl. intros w Hw. destruct (decide (w_id w = workerId)); [|done].
  by rewrite field_update_id.
Qed.

Lemma ids_fresh_delete workerId ws n :
  ids_fresh ws n → ids_fresh (workers_delete workerId ws) n.
Proof.
  intros [Hn Hl]. unfold workers_delete. split.
  - eapply sublist_NoDup; [exact Hn|]. apply (fmap_sublist w_id), sublist_filter.
  - rewrite Forall_forall in Hl. apply Forall_forall. intros w Hw.
    apply list_elem_of_filter in Hw as [_ Hw]. by apply Hl.
Qed.

Lemma coherent_pool_delete workerId ws :
  Forall coherent ws → Forall coherent (workers_delete workerId ws).
Proof.
  intros Hl. rewrite Forall_forall in Hl. apply Forall_forall. intros w Hw.
  apply list_elem_of_filter in Hw as [_ Hw]. by apply Hl.
Qed.

Lemma ids_fresh_create now ty ws n :
  ids_fresh ws n →
  ids_fresh (workers_set {| w_id := n; w_type := ty; w_status := WsIdle;
                            w_currentTask := None; w_tasksCompleted := 0;
                            w_errors := 0; w_startTime := now;
                            w_lastActivity := now |} ws) (S n).
Proof.
  intros [Hn Hl].
  assert (n ∉ map w_id ws) as Hfresh.
  { rewrite list_elem_of_fmap. intros (w & Hid & Hin).
    rewrite Forall_forall in Hl. specialize (Hl w Hin). lia. }
  rewrite workers_set_fresh; [|done]. split.
  - rewrite map_app. simpl. apply NoDup_app. split; [done|]. split.
    + intros x Hx. rewrite list_elem_of_singleton. intros ->. done.
    + apply NoDup_singleton.
  - apply Forall_app. split.
    + eapply Forall_impl; [exact Hl|]. simpl. intros w Hw. lia.
    + apply Forall_singleton. simpl. lia.
Qed.

Lemma coherent_update f w : field_update f → coherent w → coherent (f w).
Proof.
  unfold coherent. destruct 1; simpl; done.
Qed.

Lemma coherent_pool_update workerId f ws :
  field_update f → Forall coherent ws → Forall coherent (workers_mutate workerId f ws).
Proof.
  intros Hf Hl. unfold workers_mutate. rewrite Forall_map.
  eapply Forall_impl; [exact Hl|]. simpl. intros w Hw.
  destruct (decide (w_id w = workerId)); [by apply coherent_update|done].
Qed.

Lemma coherent_pool_create w ws :
  coherent w → Forall coherent ws → Forall coherent (workers_set w ws).
Proof.
  intros Hw. induction ws as [|x rest IH]; simpl; intros Hl.
  - by apply Forall_singleton.
  - apply Forall_cons in Hl as [Hx Hrest].
    destruct (decide (w_id x = w_id w)); apply Forall_cons; auto.
Qed.

(** X1. After any callbacks from the start, the workers that [getWorkers]
    lists have pairwise distinct identifiers, all below the identifier that
    [createWorker] gives out next: an identifier is never given twice. *)
Theorem worker_ids_are_distinct (cfg : Config) (l : list (Z * Input)) :
  ∃ s, run cfg initial l = Some s ∧
       NoDup (map info_id (getWorkers s)) ∧
       Forall (λ i, (info_id i < nextWorkerId s)%nat) (getWorkers s).
Proof.
  exists (after cfg l). split; [apply after_run|].
  assert (pool_inv ids_fresh (after cfg l)) as [Hn Hl].
  { eapply (run_inv cfg ids_fresh); [| | |apply after_run|].
    - intros. by apply ids_fresh_update.
    - intros. by apply ids_fresh_delete.
    - intros. by apply ids_fresh_create.
    - split; [apply NoDup_nil_2|by apply Forall_nil]. }
  unfold getWorkers. split.
  - by rewrite map_map.
  - by rewrite Forall_map.
Qed.

(** X2. After any callbacks from the start, every worker that [getWorkers]
    lists as running has a current task and every worker listed as idle has
    none; no listed worker is paused or terminated. *)
Theorem listed_workers_are_coherent (cfg : Config) (l : list (Z * Input)) :
  ∃ s, run cfg initial l = Some s ∧
       Forall (λ i, match info_status i with
                    | WsRunning => is_Some (info_currentTask i)
                    | WsIdle => info_currentTask i = None
                    | WsError => True
                    | WsPaused | WsTerminated => False
                    end) (getWorkers s).
Proof.
  exists (after cfg l). split; [apply after_run|].
  assert (pool_inv (λ ws _, Forall coherent ws) (after cfg l)) as Hc.
  { eapply (run_inv cfg (λ ws _, Forall coherent ws)); [| | |apply after_run|].
    - intros. by apply coherent_pool_update.
    - intros. by apply coherent_pool_delete.
    - intros. by apply coherent_pool_create.
    - by apply Forall_nil. }
  unfold getWorkers. rewrite Forall_map. exact Hc.
Qed.

(** ** What [processQueue] starts *)

Lemma getOrCreateWorker_canSpawn cfg now ty s workerId s1 :
  getOrCreateWorker cfg now ty s = Some (workerId, s1) →
  (length (workers s) ≤ length (workers s1))%nat.
Proof.
  intros H.
  destruct (getOrCreateWorker_cases _ _ _ _ _ _ H) as [->|[[w ->]|[_ Hc]]]; [done| |].
  - simpl. by rewrite workers_mutate_length.
  - unfold createWorker in Hc. injection Hc as _ ->. simpl.
    clear H. induction (workers s) as [|x rest IH]; simpl; [lia|].
    destruct (decide (w_id x = nextWorkerId s)); simpl; lia.
Qed.

Lemma processQueue_loop_drains cfg now q : ∀ s s',
  processQueue_loop cfg now q s = Some s' →
  taskQueue s' = [] ∨ canSpawnWorker cfg s' = false.
Proof.
  induction q as [|task rest IH]; intros s s'; simpl.
  - intros [= <-]. by left.
  - destruct (canSpawnWorker cfg s) eqn:Hc; [|intros [= <-]; by right].
    unfold executeTask.
    destruct (getOrCreateWorker cfg now (task_type task) (with_taskQueue rest s))
      as [[workerId s1]|] eqn:Hg; [|done].
    apply IH.
Qed.

Lemma processQueue_loop_active cfg now q : ∀ s s',
  processQueue_loop cfg now q s = Some s' →
  (∀ k, is_Some (activeTasks s !! k) → is_Some (activeTasks s' !! k)) ∧
  Forall (λ t, t ∈ taskQueue s' ∨ is_Some (activeTasks s' !! task_id t)) q.
Proof.
  induction q as [|task rest IH]; intros s s'; simpl.
  - intros [= <-]. split; [done|by apply Forall_nil].
  - destruct (canSpawnWorker cfg s).
    2:{ intros [= <-]. split; [done|]. simpl. apply Forall_forall. intros t Ht. by left. }
    unfold executeTask.
    destruct (getOrCreateWorker cfg now (task_type task) (with_taskQueue rest s))
      as [[workerId s1]|] eqn:Hg; [|done].
    intros Hl. destruct (IH _ _ Hl) as [Hkeep Hrest].
    destruct (getOrCreateWorker_data _ _ _ _ _ _ Hg) as (_ & Ha1 & _).
    rewrite executeTask_resume_activeTasks, Ha1 in Hkeep. simpl in Hkeep.
    split.
    + intros k Hk. apply Hkeep. rewrite lookup_insert_is_Some.
      destruct (decide (task_id task = k)); [by left|by right].
    + apply Forall_cons. split; [|exact Hrest].
      right. apply Hkeep. rewrite lookup_insert_is_Some. by left.
Qed.

(** X3. [processQueue] settles.  It starts a front piece of the queue, in
    the order of the queue, and leaves the rest queued; it stops only when
    the queue is empty or the pool holds [maxWorkers] workers. *)
Theorem processQueue_starts_front (cfg : Config) (now : Z) (s : State) :
  ∃ s' started,
    processQueue cfg now s = Some s' ∧
    taskQueue s = (started ++ taskQueue s')%list ∧
    dispatched s' = (dispatched s ++ started)%list ∧
    (taskQueue s' = [] ∨ (maxWorkers cfg ≤ length (workers s'))%nat).
Proof.
  destruct (processQueue_settles cfg now s) as [s' Hp].
  destruct (processQueue_fifo _ _ _ _ Hp) as (started & Hq & Hd).
  exists s', started. split; [done|]. split; [done|]. split; [done|].
  destruct (processQueue_loop_drains _ _ _ _ _ Hp) as [He|Hc]; [by left|right].
  unfold canSpawnWorker in Hc. by apply Nat.ltb_ge in Hc.
Qed.

Lemma make_taskId_nonempty now rnd : make_taskId now rnd ≠ EmptyString.
Proof. unfold make_taskId. simpl. discriminate. Qed.

(** X4. When [submitTask] resolves, the new task is queued or running, and
    it is queued only if the pool holds [maxWorkers] workers. *)
Theorem submitted_task_is_queued_or_running (cfg : Config) (now : Z) (rnd : string)
    (task : WorkerTask) (s s' : State) (taskId : string) :
  submitTask cfg now rnd task s = Some (Resolved taskId, s') →
  taskId = make_taskId now rnd ∧
  (getTaskStatus s' taskId = running ∨
   (getTaskStatus s' taskId = queued ∧ (maxWorkers cfg ≤ length (workers s'))%nat)).
Proof.
  unfold submitTask. destruct (_ <=? _)%nat; [done|].
  match goal with |- context [processQueue cfg now ?x] =>
    set (s1 := x); destruct (processQueue cfg now s1) as [s2|] eqn:Hp end; [|done].
  intros [= <- <-]. split; [done|].
  change (mkTask (make_taskId now rnd) (task_type task) (task_description task)
            (task_priority task) (task_config task) (task_timeout task)
            (task_retryOnError task) (task_maxRetries task))
    with (submitted_task now rnd task) in s1.
  destruct (processQueue_loop_active _ _ _ _ _ Hp) as [_ Hall].
  rewrite Forall_forall in Hall.
  assert (submitted_task now rnd task ∈ taskQueue s1) as Hin.
  { unfold s1. simpl. apply elem_of_app. right. by apply list_elem_of_singleton. }
  specialize (Hall _ Hin). simpl in Hall.
  unfold getTaskStatus.
  destruct (existsb _ (taskQueue s2)) eqn:He.
  - right. split; [done|].
    destruct (processQueue_loop_drains _ _ _ _ _ Hp) as [Hnil|Hc].
    + by rewrite Hnil in He.
    + unfold canSpawnWorker in Hc. by apply Nat.ltb_ge in Hc.
  - left. destruct Hall as [Hq|Ha].
    + assert (existsb (λ t, bool_decide (task_id t = make_taskId now rnd)) (taskQueue s2)
              = true) as Ht; [|congruence].
      apply existsb_exists. exists (submitted_task now rnd task).
      split; [by apply list_elem_of_In|]. by apply bool_decide_eq_true.
    + by rewrite bool_decide_eq_true_2.
Qed.

(** X4 at a submission to the empty orchestrator. *)
Lemma submitted_task_is_queued_or_running_witness :
  getTaskStatus (after pool_of_one [(1000, Submit (plain_task "A" 1) "a")]) "task_1000_a"
  = running.
Proof.
  destruct (submitted_task_is_queued_or_running pool_of_one 1000 "a" (plain_task "A" 1)
              initial (after pool_of_one [(1000, Submit (plain_task "A" 1) "a")])
              "task_1000_a") as [_ [Hr|[Hq _]]].
  - vm_compute. reflexivity.
  - exact Hr.
  - vm_compute in Hq. discriminate Hq.
Defined.

(** ** The choice of a worker *)

Lemma workers_set_elem w ws : w ∈ workers_set w ws.
Proof.
  induction ws as [|x rest IH]; simpl; [by apply list_elem_of_singleton|].
  destruct (decide (w_id x = w_id w)); [by left|by right].
Qed.

(** X5. [getOrCreateWorker] gives out a worker of the pool that is idle and
    has the requested type.  If a worker of the pool is idle, one of the
    idle workers is taken and none is created; if an idle worker has the
    requested type already, nothing changes at all.  A worker is created
    only when none is idle and the pool is below [maxWorkers], and the
    function is left polling only when none is idle and the pool is full. *)
Theorem getOrCreateWorker_choice (cfg : Config) (now : Z) (ty : WorkerTaskType)
    (s : State) :
  match getOrCreateWorker cfg now ty s with
  | None =>
      (∀ w, w ∈ workers s → w_status w ≠ WsIdle) ∧
      (maxWorkers cfg ≤ length (workers s))%nat
  | Some (workerId, s1) =>
      (∃ w, w ∈ workers s1 ∧ w_id w = workerId ∧ w_status w = WsIdle ∧ w_type w = ty) ∧
      ((∃ w, w ∈ workers s ∧ w_status w = WsIdle) →
       (∃ w, w ∈ workers s ∧ w_id w = workerId ∧ w_status w = WsIdle) ∧
       map w_id (workers s1) = map w_id (workers s) ∧
       nextWorkerId s1 = nextWorkerId s ∧ emitted s1 = emitted s) ∧
      ((∃ w, w ∈ workers s ∧ w_type w = ty ∧ w_status w = WsIdle) → s1 = s) ∧
      ((∀ w, w ∈ workers s → w_status w ≠ WsIdle) →
       (length (workers s) < maxWorkers cfg)%nat ∧ workerId = nextWorkerId s)
  end.
Proof.
  unfold getOrCreateWorker.
  destruct (find (λ w, bool_decide (w_type w = ty) && bool_decide (w_status w = WsIdle))
              (workers s)) as [w|] eqn:Hf1.
  { apply find_some in Hf1 as [Hin Hp]. apply list_elem_of_In in Hin.
    apply andb_true_iff in Hp as [Hty Hidle].
    apply bool_decide_eq_true in Hty. apply bool_decide_eq_true in Hidle.
    split; [by exists w|]. split; [|split]; [|done|].
    - intros _. split; [by exists w|done].
    - intros Hno. by destruct (Hno w Hin). }
  pose proof (find_none _ _ Hf1) as Hn1.
  destruct (find (λ w, bool_decide (w_status w = WsIdle)) (workers s)) as [w|] eqn:Hf2.
  { apply find_some in Hf2 as [Hin Hidle]. apply list_elem_of_In in Hin.
    apply bool_decide_eq_true in Hidle.
    split; [|split; [|split]].
    - exists (set_type ty w). split; [|done]. simpl. unfold workers_mutate.
      apply list_elem_of_fmap. exists w. split; [|done].
      by destruct (decide (w_id w = w_id w)).
    - intros _. split; [by exists w|]. simpl.
      split; [|done]. apply workers_mutate_ids. constructor.
    - intros (w' & Hin' & Hty' & Hidle'). apply list_elem_of_In in Hin'.
      specialize (Hn1 w' Hin'). simpl in Hn1.
      by rewrite !bool_decide_eq_true_2 in Hn1.
    - intros Hno. by destruct (Hno w Hin). }
  pose proof (find_none _ _ Hf2) as Hn2.
  assert (∀ w, w ∈ workers s → w_status w ≠ WsIdle) as Hno.
  { intros w Hin Hidle. apply list_elem_of_In in Hin. specialize (Hn2 w Hin).
    simpl in Hn2. by rewrite bool_decide_eq_true_2 in Hn2. }
  destruct (Nat.ltb_spec (length (workers s)) (maxWorkers cfg)) as [Hlt|Hge].
  - unfold createWorker. split; [|split; [|split]].
    + eexists. split; [apply workers_set_elem|done].
    + intros (w & Hin & Hidle). by destruct (Hno w Hin).
    + intros (w & Hin & _ & Hidle). by destruct (Hno w Hin).
    + done.
  - done.
Qed.

(** ** Results are kept *)

Lemma writes_only_weaken (P Q : WorkerResult → Prop) s s' :
  (∀ r, P r → Q r) → writes_only P s s' → writes_only Q s s'.
Proof.
  intros HPQ [Heq|(k & r & Heq & HP)]; [by left|].
  right. exists k, r. split; [done|by apply HPQ].
Qed.

Lemma step_writes cfg s now i s' :
  step cfg s now i = Some s' → writes_only (λ _, True) s s'.
Proof.
  assert (∀ P s1, results s1 = results s → writes_only P s1 s' →
                  writes_only (λ _, True) s s') as Hw.
  { intros P s1 Heq1 [Heq|(k & r & Heq & _)]; rewrite Heq1 in Heq; [by left|].
    right. by exists k, r. }
  destruct i as [task rnd|workerId m later|workerId message|workerId code|taskId]; simpl.
  - unfold submitTask. destruct (_ <=? _)%nat; [intros [= <-]; by left|].
    match goal with |- context [processQueue cfg now ?x] =>
      destruct (processQueue cfg now x) as [s2|] eqn:Hp end; [|done].
    intros [= <-]. left. by rewrite (processQueue_results _ _ _ _ Hp).
  - unfold handleWorkerMessage.
    destruct (workers_get workerId (workers s)) as [w|]; [|intros [= <-]; by left].
    destruct m as [tid c t msg|tid result duration|tid msg|ty].
    + intros [= <-]. left. unfold handleProgress. by destruct (held_task _ _).
    + intros H. apply handleComplete_writes in H. by apply Hw in H.
    + intros H. apply handleTaskError_writes in H. by apply Hw in H.
    + intros [= <-]. by left.
  - unfold handleWorkerError.
    destruct (workers_get workerId (workers s)) as [w|]; [|intros [= <-]; by left].
    destruct (truthy_string _); [|intros [= <-]; by left].
    intros H. apply handleTaskError_writes in H. by apply Hw in H.
  - unfold handleWorkerExit.
    destruct (workers_get workerId (workers s)) as [w|]; [|intros [= <-]; by left].
    destruct (truthy_string _); [|intros [= <-]; by left].
    intros H. apply handleTaskError_writes in H. by apply Hw in H.
  - intros [= <-]. unfold timerFired. destruct (activeTasks s !! taskId); [|by left].
    eapply writes_only_weaken; [|apply terminateTask_writes]. done.
Qed.

(** X6. No callback removes a result: a task that has a result keeps one
    through every further callback, and the count [completedTasks] of
    [getStatus] never goes down. *)
Theorem results_are_kept (cfg : Config) (l : list (Z * Input)) (s s' : State)
    (taskId : string) :
  run cfg s l = Some s' →
  (is_Some (getResult s taskId) → is_Some (getResult s' taskId)) ∧
  (st_completedTasks (getStatus cfg s) ≤ st_completedTasks (getStatus cfg s'))%nat.
Proof.
  revert s. induction l as [|[now i] l IH]; intros s; simpl.
  - intros [= <-]. done.
  - destruct (step cfg s now i) as [s1|] eqn:Hs; [|done].
    intros Hr. destruct (IH _ Hr) as [Hk Hc]. unfold getResult in *. simpl in *.
    destruct (step_writes _ _ _ _ _ Hs) as [Heq|(k & r & Heq & _)].
    + rewrite Heq in *. done.
    + rewrite Heq in *. split.
      * intros Hsome. apply Hk. rewrite lookup_insert_is_Some.
        destruct (decide (k = taskId)); [by left|by right].
      * etrans; [|exact Hc]. rewrite map_size_insert.
        destruct (results s !! k); simpl; lia.
Qed.

(** X6 at the result of a completed task, through the failure and the exit
    of its worker. *)
Lemma results_are_kept_witness :
  let s := after pool_of_one
             [(1000, Submit (plain_task "A" 1) "a");
              (2000, Message 1 (MsgComplete "task_1000_a" "done" 1000) 2000)] in
  let s' := after pool_of_one
              [(1000, Submit (plain_task "A" 1) "a");
               (2000, Message 1 (MsgComplete "task_1000_a" "done" 1000) 2000);
               (3000, WorkerFailed 1 "crash");
               (3001, WorkerExit 1 1)] in
  is_Some (getResult s' "task_1000_a").
Proof.
  intros s s'.
  apply (results_are_kept pool_of_one
           [(3000, WorkerFailed 1 "crash"); (3001, WorkerExit 1 1)] s s' "task_1000_a").
  - vm_compute. reflexivity.
  - vm_compute. eauto.
Defined.

(** ** Workers that leave the pool *)

Lemma workers_delete_absent workerId ws :
  workerId ∉ map w_id ws → workers_delete workerId ws = ws.
Proof.
  unfold workers_delete. induction ws as [|x rest IH]; simpl; [done|].
  rewrite not_elem_of_cons. intros [Hne Hrest]. rewrite filter_cons.
  destruct (decide (w_id x ≠ workerId)) as [_|Hn]; [by rewrite IH|].
  destruct Hn. congruence.
Qed.

Lemma workers_delete_one workerId ws :
  NoDup (map w_id ws) → (length ws ≤ S (length (workers_delete workerId ws)))%nat.
Proof.
  unfold workers_delete. induction ws as [|x rest IH]; simpl; [lia|].
  rewrite NoDup_cons. intros [Hx Hrest]. rewrite filter_cons.
  destruct (decide (w_id x ≠ workerId)) as [Hne|Heq]; simpl.
  - specialize (IH Hrest). lia.
  - apply dec_stable in Heq. rewrite <- Heq.
    fold (workers_delete (w_id x) rest). rewrite workers_delete_absent; [lia|done].
Qed.

(** X7. [considerScaleDown] does nothing while a task is queued, while the
    pool has one worker or none, or while the worker has not been idle for
    more than [idleTimeout].  When the identifiers in the pool are distinct
    it removes at most one worker, and only the one it was called for, so
    that a pool with a worker in it keeps one. *)
Theorem considerScaleDown_keeps_one (cfg : Config) (later : Z)
    (worker : WorkerInstance) (s : State) :
  NoDup (map w_id (workers s)) →
  let s' := considerScaleDown cfg later worker s in
  (taskQueue s ≠ [] ∨ (length (workers s) ≤ 1)%nat ∨
   later - w_lastActivity worker ≤ idleTimeout cfg → s' = s) ∧
  (length (workers s) ≤ S (length (workers s')))%nat ∧
  (workers s ≠ [] → workers s' ≠ []) ∧
  (∀ w, w ∈ workers s → w_id w ≠ w_id worker → w ∈ workers s').
Proof.
  intros Hnd s'.
  assert (s' = s ∨
          (workers s' = workers_delete (w_id worker) (workers s) ∧
           taskQueue s = [] ∧ (1 < length (workers s))%nat ∧
           idleTimeout cfg < later - w_lastActivity worker)) as [Hsame|Hgone].
  { unfold s', considerScaleDown, terminateWorker.
    destruct (Nat.leb_spec (length (workers s)) 1) as [Hle|Hgt]; [by left|].
    destruct (Nat.ltb_spec 0 (length (taskQueue s))) as [Hq|Hq]; [by left|].
    destruct (Z.ltb_spec (idleTimeout cfg) (later - w_lastActivity worker)) as [Hi|Hi];
      [|by left].
    destruct (workers_get (w_id worker) (workers s)); [|by left].
    right. split; [done|]. split; [|done].
    destruct (taskQueue s); [done|simpl in Hq; lia]. }
  - rewrite Hsame. repeat split; try done. lia.
  - destruct Hgone as (Hw & Hq & Hl & Hi). rewrite Hw.
    pose proof (workers_delete_one (w_id worker) (workers s) Hnd) as Hone.
    split; [|split; [|split]].
    + intros [Hne|[Hle|Hle]]; [done|lia|lia].
    + exact Hone.
    + intros _ Hnil. rewrite Hnil in Hone. simpl in Hone. lia.
    + intros w Hin Hne. unfold workers_delete. by apply list_elem_of_filter.
Qed.

(** X7 at a pool of two idle workers, the first of them idle for longer than
    [idleTimeout]. *)
Lemma considerScaleDown_keeps_one_witness :
  let w1 := {| w_id := 1; w_type := Monitor; w_status := WsIdle; w_currentTask := None;
               w_tasksCompleted := 1; w_errors := 0; w_startTime := 0;
               w_lastActivity := 0 |} in
  let w2 := {| w_id := 2; w_type := Research; w_status := WsIdle; w_currentTask := None;
               w_tasksCompleted := 0; w_errors := 0; w_startTime := 0;
               w_lastActivity := 0 |} in
  let s := with_workers [w1; w2] initial in
  workers (considerScaleDown pool_of_two 300001 w1 s) = [w2] ∧
  workers (considerScaleDown pool_of_two 300001 w1 s) ≠ [].
Proof.
  intros w1 w2 s. split; [vm_compute; reflexivity|].
  apply (considerScaleDown_keeps_one pool_of_two 300001 w1 s).
  - simpl. apply NoDup_cons. split; [|apply NoDup_singleton].
    rewrite list_elem_of_singleton. discriminate.
  - discriminate.
Defined.

Lemma workers_get_Some_id workerId ws w :
  workers_get workerId ws = Some w → w ∈ ws ∧ w_id w = workerId.
Proof.
  unfold workers_get. intros H. apply find_some in H as [Hin Hb].
  split; [by apply list_elem_of_In|by apply bool_decide_eq_true in Hb].
Qed.

Lemma workers_get_is_Some workerId ws :
  is_Some (workers_get workerId ws) ↔ workerId ∈ map w_id ws.
Proof.
  unfold workers_get. induction ws as [|x rest IH]; simpl.
  - split; [by intros [? ?]|by intros ?%elem_of_nil].
  - destruct (bool_decide_reflect (w_id x = workerId)) as [Heq|Hne].
    + split; [intros _; rewrite Heq; by left|by eauto].
    + rewrite IH, elem_of_cons. split; [by right|]. intros [Heq|Hin]; [congruence|done].
Qed.

(** Worker [workerId] is in the pool. *)
Lemma present_update workerId k f ws :
  field_update f → workerId ∈ map w_id ws → workerId ∈ map w_id (workers_mutate k f ws).
Proof. intros Hf. by rewrite workers_mutate_ids. Qed.

Lemma present_create workerId w ws :
  workerId ∈ map w_id ws → workerId ∈ map w_id (workers_set w ws).
Proof.
  induction ws as [|x rest IH]; simpl; [by intros ?%elem_of_nil|].
  rewrite elem_of_cons. intros [Heq|Hin].
  - destruct (decide (w_id x = w_id w)) as [Hxw|Hxw]; simpl.
    + rewrite <- Hxw, Heq. by left.
    + rewrite Heq. by left.
  - destruct (decide (w_id x = w_id w)); simpl; [by right|]. right. by apply IH.
Qed.

Lemma present_delete workerId k ws :
  workerId ≠ k → workerId ∈ map w_id ws → workerId ∈ map w_id (workers_delete k ws).
Proof.
  intros Hne. rewrite !list_elem_of_fmap. intros (w & Hid & Hin).
  exists w. split; [done|]. unfold workers_delete. apply list_elem_of_filter.
  split; [congruence|done].
Qed.

Lemma considerScaleDown_present cfg later worker s workerId :
  workerId ≠ w_id worker ∨ later - w_lastActivity worker ≤ idleTimeout cfg →
  workerId ∈ map w_id (workers s) →
  workerId ∈ map w_id (workers (considerScaleDown cfg later worker s)).
Proof.
  intros Hc Hin. unfold considerScaleDown, terminateWorker.
  destruct (_ <=? _)%nat; [done|]. destruct (_ <? _)%nat; [done|].
  destruct (Z.ltb_spec (idleTimeout cfg) (later - w_lastActivity worker)); [|done].
  destruct (workers_get _ _); [|done]. simpl.
  destruct Hc as [Hne|Hle]; [by apply present_delete|lia].
Qed.

(** X8. Through a call of [submitTask], a message of a worker, the [error]
    or [exit] event of a worker and the timer of a task, a worker of the
    pool stays in the pool, unless the callback is the [exit] event of its
    own thread, or its own completion message with auto-scaling on and the
    clock advancing by more than [idleTimeout] between the two readings of
    that callback.  ([shutdown], which empties the pool, is not one of these
    callbacks.) *)
Theorem workers_leave_by_exit_or_reaping (cfg : Config) (s s' : State) (now : Z)
    (i : Input) (workerId : nat) :
  step cfg s now i = Some s' →
  match i with
  | WorkerExit k _ => workerId ≠ k
  | Message k (MsgComplete _ _ _) later =>
      workerId ≠ k ∨ enableAutoScaling cfg = false ∨ later - now ≤ idleTimeout cfg
  | _ => True
  end →
  is_Some (workers_get workerId (workers s)) →
  is_Some (workers_get workerId (workers s')).
Proof.
  rewrite !workers_get_is_Some.
  set (K := λ (ws : list WorkerInstance) (_ : nat), workerId ∈ map w_id ws).
  assert (∀ k f ws n, field_update f → K ws n → K (workers_mutate k f ws) n) as Ku.
  { intros k f ws n Hf. by apply present_update. }
  assert (∀ t ty ws n, K ws n →
            K (workers_set {| w_id := n; w_type := ty; w_status := WsIdle;
                              w_currentTask := None; w_tasksCompleted := 0;
                              w_errors := 0; w_startTime := t;
                              w_lastActivity := t |} ws) (S n)) as Kc.
  { intros t ty ws n. by apply present_create. }
  intros Hs Hcond Hk. change (pool_inv K s) in Hk. change (pool_inv K s').
  revert Hs Hcond Hk.
  destruct i as [task rnd|k m later|k message|k code|taskId]; simpl.
  - unfold submitTask. destruct (_ <=? _)%nat; [by intros [= <-]|].
    match goal with |- context [processQueue cfg now ?x] =>
      destruct (processQueue cfg now x) as [s2|] eqn:Hp end; [|done].
    intros [= <-] _ Hk. by apply (processQueue_inv cfg K Ku Kc _ _ _ Hp).
  - unfold handleWorkerMessage.
    destruct (workers_get k (workers s)) as [w|] eqn:Hw; [|by destruct m; intros [= <-]].
    destruct (workers_get_Some_id _ _ _ Hw) as [_ Hid].
    assert (pool_inv K s → pool_inv K (mutate k (set_lastActivity now) s)) as Hm.
    { intros Hj. apply (Ku _ _ _ (nextWorkerId s)); [constructor|exact Hj]. }
    destruct m as [tid c t msg|tid result duration|tid msg|ty].
    + intros [= <-] _ Hk. unfold handleProgress.
      destruct (held_task _ _); by apply Hm.
    + unfold handleComplete.
      destruct (held_task _ _) as [task|]; [|intros [= <-] _ Hk; by apply Hm].
      match goal with |- context [processQueue_begin cfg now ?x] =>
        set (s4 := x);
        destruct (processQueue_begin cfg now s4) as [[suspended s5]|] eqn:Hb5 end;
        [|done].
      intros H Hcond Hk.
      assert (pool_inv K s4) as Hk4.
      { unfold s4. apply (Ku _ _ _ (nextWorkerId s)); [constructor|]. by apply Hm. }
      pose proof (processQueue_begin_inv cfg K Ku Kc _ _ _ _ Hb5 Hk4) as Hk5.
      assert (pool_inv K (if enableAutoScaling cfg
                          then considerScaleDown cfg later (set_lastActivity now w) s5
                          else s5)) as Hk6.
      { destruct (enableAutoScaling cfg) eqn:Ha; [|done].
        apply considerScaleDown_present; [|exact Hk5]. simpl.
        destruct Hcond as [Hne|[Hoff|Hle]]; [left; congruence|done|by right]. }
      destruct suspended as [[next wid]|].
      * apply (processQueue_inv cfg K Ku Kc _ _ _ H).
        by apply (executeTask_resume_inv K Ku).
      * by injection H as <-.
    + intros H _ Hk. apply (handleTaskError_inv cfg K Ku Kc _ _ _ _ _ H). by apply Hm.
    + intros [= <-] _ Hk. by apply Hm.
  - unfold handleWorkerError.
    destruct (workers_get k (workers s)) as [w|]; [|by intros [= <-]].
    assert (pool_inv K s →
            pool_inv K (emit (workerError k message)
                          (mutate k (set_status WsError) s))) as Hm.
    { intros Hj. apply (Ku _ _ _ (nextWorkerId s)); [constructor|exact Hj]. }
    destruct (truthy_string _).
    + intros H _ Hk. apply (handleTaskError_inv cfg K Ku Kc _ _ _ _ _ H). by apply Hm.
    + intros [= <-] _ Hk. by apply Hm.
  - unfold handleWorkerExit.
    destruct (workers_get k (workers s)) as [w|]; [|by intros [= <-]].
    destruct (truthy_string _).
    + intros H Hne Hk. apply (handleTaskError_inv cfg K Ku Kc _ _ _ _ _ H).
      by apply present_delete.
    + intros [= <-] Hne Hk. by apply present_delete.
  - intros [= <-] _ Hk. unfold timerFired.
    destruct (activeTasks s !! taskId); [|done]. by apply (terminateTask_inv K Ku).
Qed.

(** X8 at a completion message handled within one millisecond. *)
Lemma workers_leave_by_exit_or_reaping_witness :
  let s := after pool_of_two
             [(1000, Submit (plain_task "A" 1) "a");
              (1001, Submit (plain_task "B" 1) "b")] in
  let s' := after pool_of_two
              [(1000, Submit (plain_task "A" 1) "a");
               (1001, Submit (plain_task "B" 1) "b");
               (2000, Message 1 (MsgComplete "task_1000_a" "done" 1000) 2001)] in
  is_Some (workers_get 1 (workers s')).
Proof.
  intros s s'.
  apply (workers_leave_by_exit_or_reaping pool_of_two s s' 2000
           (Message 1 (MsgComplete "task_1000_a" "done" 1000) 2001) 1).
  - vm_compute. reflexivity.
  - right. right. vm_compute. discriminate.
  - vm_compute. eauto.
Defined.

(** ** Tasks the orchestrator holds *)

Section TaskInvariant.

Variable cfg : Config.
Variable P : WorkerTask → Prop.

Lemma processQueue_loop_tasks now q : ∀ s s',
  processQueue_loop cfg now q s = Some s' →
  Forall P q → (∀ k t, activeTasks s !! k = Some t → P t) →
  tasks_satisfy P s'.
Proof.
  induction q as [|task rest IH]; intros s s'; simpl.
  - intros [= <-] Hq Ha. split; [by apply Forall_nil|done].
  - destruct (canSpawnWorker cfg s); [|by intros [= <-] Hq Ha].
    unfold executeTask.
    destruct (getOrCreateWorker cfg now (task_type task) (with_taskQueue rest s))
      as [[workerId s1]|] eqn:Hg; [|done].
    intros Hl Hq Ha. apply Forall_cons in Hq as [Ht Hq].
    destruct (getOrCreateWorker_data _ _ _ _ _ _ Hg) as (_ & Ha1 & _).
    eapply IH; [exact Hl|exact Hq|].
    rewrite executeTask_resume_activeTasks, Ha1. simpl. intros k t.
    rewrite lookup_insert_Some. intros [[_ <-]|[_ Hk]]; [done|by eapply Ha].
Qed.

Lemma processQueue_tasks now s s' :
  processQueue cfg now s = Some s' → tasks_satisfy P s → tasks_satisfy P s'.
Proof. intros H [Hq Ha]. by eapply processQueue_loop_tasks. Qed.

Lemma failTask_tasks worker message task s :
  held_task worker s = Some task →
  tasks_satisfy P s → tasks_satisfy P (failTask worker message task s).
Proof.
  intros Hh [Hq Ha].
  destruct (held_task_Some _ _ _ Hh) as (c & _ & _ & Hc).
  pose proof (Ha _ _ Hc) as Ht.
  unfold failTask. destruct (retry_wanted _ _); split; simpl.
  - by apply Forall_cons.
  - intros k t. rewrite lookup_delete_Some. intros [_ Hk]. by eapply Ha.
  - done.
  - intros k t. rewrite lookup_delete_Some. intros [_ Hk]. by eapply Ha.
Qed.

Lemma handleTaskError_tasks now worker message s s' :
  handleTaskError cfg now worker message s = Some s' →
  tasks_satisfy P s → tasks_satisfy P s'.
Proof.
  unfold handleTaskError. destruct (held_task worker s) as [task|] eqn:Hh;
    [|by intros [= <-]].
  intros Hp Ht. eapply processQueue_tasks; [exact Hp|]. by apply failTask_tasks.
Qed.

Lemma handleComplete_tasks now later worker result duration s s' :
  handleComplete cfg now later worker result duration s = Some s' →
  tasks_satisfy P s → tasks_satisfy P s'.
Proof.
  unfold handleComplete. destruct (held_task worker s) as [task|]; [|by intros [= <-]].
  match goal with |- context [processQueue_begin cfg now ?x] =>
    set (s4 := x); destruct (processQueue_begin cfg now s4) as [[suspended s5]|] eqn:Hb5 end;
    [|done].
  intros H [Hq Ha].
  assert (∀ k t, activeTasks s4 !! k = Some t → P t) as Ha4.
  { simpl. intros k t. rewrite lookup_delete_Some. intros [_ Hk]. by eapply Ha. }
  destruct (processQueue_begin_data _ _ _ _ _ Hb5) as (Ha5 & _ & Hq5).
  set (s6 := if enableAutoScaling cfg then considerScaleDown cfg later worker s5 else s5)
    in H.
  assert (taskQueue s6 = taskQueue s5 ∧ activeTasks s6 = activeTasks s5) as [Hq6 Ha6].
  { unfold s6. destruct (enableAutoScaling cfg); [|done].
    by destruct (considerScaleDown_data cfg later worker s5) as (-> & -> & _). }
  change (taskQueue s4) with (taskQueue s) in Hq5.
  destruct suspended as [[next workerId]|].
  - rewrite Hq5 in Hq. apply Forall_cons in Hq as [Hn Hq].
    eapply processQueue_tasks; [exact H|]. split.
    + by rewrite executeTask_resume_taskQueue, Hq6.
    + rewrite executeTask_resume_activeTasks, Ha6, Ha5. intros k t.
      rewrite lookup_insert_Some. intros [[_ <-]|[_ Hk]]; [done|by eapply Ha4].
  - injection H as <-. split; [by rewrite Hq6, Hq5|].
    rewrite Ha6, Ha5. exact Ha4.
Qed.

Lemma terminateTask_tasks taskId reason s :
  tasks_satisfy P s → tasks_satisfy P (terminateTask taskId reason s).
Proof.
  unfold terminateTask. intros [Hq Ha].
  destruct (activeTasks s !! taskId); [|done].
  destruct (find _ (workers s)); [|done].
  split; [done|]. simpl. intros k t. rewrite lookup_delete_Some.
  intros [_ Hk]. by eapply Ha.
Qed.

Lemma step_tasks s now i s' :
  step cfg s now i = Some s' →
  match i with Submit task rnd => P (submitted_task now rnd task) | _ => True end →
  tasks_satisfy P s → tasks_satisfy P s'.
Proof.
  destruct i as [task rnd|workerId m later|workerId message|workerId code|taskId]; simpl.
  - unfold submitTask. destruct (_ <=? _)%nat; [by intros [= <-]|].
    match goal with |- context [processQueue cfg now ?x] =>
      destruct (processQueue cfg now x) as [s2|] eqn:Hp end; [|done].
    intros [= <-] Hnew [Hq Ha]. eapply processQueue_tasks; [exact Hp|].
    split; [|done]. simpl. apply Forall_app. split; [done|]. by apply Forall_singleton.
  - unfold handleWorkerMessage.
    destruct (workers_get workerId (workers s)) as [w|]; [|by intros [= <-]].
    destruct m as [tid c t msg|tid result duration|tid msg|ty].
    + intros [= <-] _ Ht. unfold handleProgress. by destruct (held_task _ _).
    + intros H _ Ht. eapply handleComplete_tasks; [exact H|exact Ht].
    + intros H _ Ht. eapply handleTaskError_tasks; [exact H|exact Ht].
    + by intros [= <-].
  - unfold handleWorkerError.
    destruct (workers_get workerId (workers s)) as [w|]; [|by intros [= <-]].
    destruct (truthy_string _); [|by intros [= <-]].
    intros H _ Ht. eapply handleTaskError_tasks; [exact H|exact Ht].
  - unfold handleWorkerExit.
    destruct (workers_get workerId (workers s)) as [w|]; [|by intros [= <-]].
    destruct (truthy_string _); [|by intros [= <-]].
    intros H _ Ht. eapply handleTaskError_tasks; [exact H|exact Ht].
  - intros [= <-] _ Ht. unfold timerFired.
    destruct (activeTasks s !! taskId); [|done]. by apply terminateTask_tasks.
Qed.

End TaskInvariant.

(** ** The length of the queue *)

Lemma processQueue_shortens cfg now s s' :
  processQueue cfg now s = Some s' →
  (length (taskQueue s') ≤ length (taskQueue s))%nat.
Proof.
  intros H. destruct (processQueue_fifo _ _ _ _ H) as (started & -> & _).
  rewrite length_app. lia.
Qed.

Lemma failTask_no_retry worker message task s :
  no_retry task → taskQueue (failTask worker message task s) = taskQueue s.
Proof.
  unfold no_retry, failTask, retry_wanted. intros ->. reflexivity.
Qed.

Lemma step_queue_length cfg s now i s' :
  step cfg s now i = Some s' →
  tasks_satisfy no_retry s →
  (length (taskQueue s) ≤ taskQueueSize cfg)%nat →
  (length (taskQueue s') ≤ taskQueueSize cfg)%nat.
Proof.
  intros Hs [_ Ha] Hlen.
  assert (∀ worker message s1 s2,
            activeTasks s1 = activeTasks s → taskQueue s1 = taskQueue s →
            handleTaskError cfg now worker message s1 = Some s2 →
            (length (taskQueue s2) ≤ taskQueueSize cfg)%nat) as Herr.
  { intros worker message s1 s2 Ha1 Hq1. unfold handleTaskError.
    destruct (held_task worker s1) as [task|] eqn:Hh; [|intros [= <-]; by rewrite Hq1].
    destruct (held_task_Some _ _ _ Hh) as (c & _ & _ & Hc). rewrite Ha1 in Hc.
    intros Hp. apply processQueue_shortens in Hp.
    rewrite failTask_no_retry in Hp; [|by eapply Ha]. rewrite Hq1 in Hp. lia. }
  destruct i as [task rnd|workerId m later|workerId message|workerId code|taskId];
    simpl in Hs.
  - unfold submitTask in Hs.
    destruct (Nat.leb_spec (taskQueueSize cfg) (length (taskQueue s))) as [Hfull|Hroom].
    { by injection Hs as <-. }
    match type of Hs with context [processQueue cfg now ?x] =>
      destruct (processQueue cfg now x) as [s2|] eqn:Hp end; [|done].
    injection Hs as <-. apply processQueue_shortens in Hp. simpl in Hp.
    rewrite length_app in Hp. simpl in Hp. lia.
  - unfold handleWorkerMessage in Hs.
    destruct (workers_get workerId (workers s)) as [w|]; [|by injection Hs as <-].
    destruct m as [tid c t msg|tid result duration|tid msg|ty].
    + injection Hs as <-. unfold handleProgress. by destruct (held_task _ _).
    + unfold handleComplete in Hs.
      destruct (held_task _ _) as [task|]; [|by injection Hs as <-].
      match type of Hs with context [processQueue_begin cfg now ?x] =>
        set (s4 := x) in Hs;
        destruct (processQueue_begin cfg now s4) as [[suspended s5]|] eqn:Hb5 end;
        [|done].
      destruct (processQueue_begin_data _ _ _ _ _ Hb5) as (_ & _ & Hq5).
      change (taskQueue s4) with (taskQueue s) in Hq5.
      set (s6 := if enableAutoScaling cfg
                 then considerScaleDown cfg later (set_lastActivity now w) s5 else s5)
        in Hs.
      assert (taskQueue s6 = taskQueue s5) as Hq6.
      { unfold s6. destruct (enableAutoScaling cfg); [|done].
        by destruct (considerScaleDown_data cfg later (set_lastActivity now w) s5)
          as (-> & _). }
      destruct suspended as [[next wid]|].
      * apply processQueue_shortens in Hs.
        rewrite executeTask_resume_taskQueue, Hq6 in Hs.
        rewrite Hq5 in Hlen. simpl in Hlen. lia.
      * injection Hs as <-. by rewrite Hq6, Hq5.
    + refine (Herr _ _ _ _ _ _ Hs); reflexivity.
    + by injection Hs as <-.
  - unfold handleWorkerError in Hs.
    destruct (workers_get workerId (workers s)) as [w|]; [|by injection Hs as <-].
    destruct (truthy_string _); [|by injection Hs as <-].
    refine (Herr _ _ _ _ _ _ Hs); reflexivity.
  - unfold handleWorkerExit in Hs.
    destruct (workers_get workerId (workers s)) as [w|]; [|by injection Hs as <-].
    destruct (truthy_string _); [|by injection Hs as <-].
    refine (Herr _ _ _ _ _ _ Hs); reflexivity.
  - injection Hs as <-. unfold timerFired, terminateTask.
    destruct (activeTasks s !! taskId); [|done].
    by destruct (find _ (workers s)).
Qed.

(** X9. When no submitted task asks for a retry, the queue never holds more
    than [taskQueueSize] tasks, whatever callbacks run.  (A retry puts its
    task back without looking at the capacity.) *)
Theorem queue_within_capacity_without_retries (cfg : Config) (l : list (Z * Input))
    (s : State) :
  submissions_satisfy no_retry l →
  run cfg initial l = Some s →
  (st_queuedTasks (getStatus cfg s) ≤ taskQueueSize cfg)%nat.
Proof.
  intros Hsub Hrun. simpl.
  assert (∀ s0, tasks_satisfy no_retry s0 →
                (length (taskQueue s0) ≤ taskQueueSize cfg)%nat →
                run cfg s0 l = Some s →
                (length (taskQueue s) ≤ taskQueueSize cfg)%nat) as Hgen.
  { clear Hrun. induction l as [|[now i] l IH]; intros s0 Ht Hlen; simpl.
    - by intros [= <-].
    - destruct (step cfg s0 now i) as [s1|] eqn:Hs; [|done].
      apply Forall_cons in Hsub as [Hi Hsub]. simpl in Hi.
      apply (IH Hsub).
      + eapply step_tasks; [exact Hs| |exact Ht]. by destruct i.
      + eapply step_queue_length; [exact Hs|exact Ht|exact Hlen]. }
  apply (Hgen initial); [|simpl; lia|exact Hrun].
  split; [by apply Forall_nil|]. simpl. intros k t. by rewrite lookup_empty.
Qed.

(** X9 at three submissions to a pool of one with a queue of two. *)
Lemma queue_within_capacity_without_retries_witness :
  let cfg := {| maxWorkers := 1; enableAutoScaling := true; idleTimeout := 300000;
                taskQueueSize := 2 |} in
  let l := [(1000, Submit (plain_task "A" 1) "a");
            (1001, Submit (plain_task "B" 1) "b");
            (1002, Submit (plain_task "C" 1) "c");
            (1003, Submit (plain_task "D" 1) "d")] in
  (st_queuedTasks (getStatus cfg (after cfg l)) ≤ 2)%nat.
Proof.
  intros cfg l.
  apply (queue_within_capacity_without_retries cfg l (after cfg l)).
  - unfold submissions_satisfy, no_retry. repeat constructor.
  - apply after_run.
Defined.

(** ** A task from its start to its result *)

Lemma progress_reported_emit e s :
  progress_reported (emit e s)
  = (progress_reported s
     ++ match e with
        | taskProgress taskId count total message =>
            [(taskId, count, total, message)]
        | _ => []
        end)%list.
Proof. unfold progress_reported. simpl. rewrite omap_app. by destruct e. Qed.

Lemma getOrCreateWorker_progress cfg now ty s workerId s1 :
  getOrCreateWorker cfg now ty s = Some (workerId, s1) →
  progress_reported s1 = progress_reported s.
Proof.
  intros H.
  destruct (getOrCreateWorker_cases _ _ _ _ _ _ H) as [->|[[w ->]|[_ Hc]]]; [done|done|].
  unfold createWorker in Hc. injection Hc as _ ->.
  rewrite progress_reported_emit. by rewrite app_nil_r.
Qed.

Lemma executeTask_resume_progress now task workerId s :
  progress_reported (executeTask_resume now task workerId s) = progress_reported s.
Proof.
  unfold executeTask_resume.
  destruct (task_timeout task) as [ms|]; [destruct (ms =? 0)|];
    rewrite !progress_reported_emit; by rewrite ?app_nil_r.
Qed.

Lemma considerScaleDown_progress cfg later worker s :
  progress_reported (considerScaleDown cfg later worker s) = progress_reported s.
Proof.
  unfold considerScaleDown, terminateWorker.
  destruct (_ <=? _)%nat; [done|]. destruct (_ <? _)%nat; [done|].
  destruct (_ <? _); [|done]. destruct (workers_get _ _); [|done].
  rewrite progress_reported_emit. by rewrite app_nil_r.
Qed.

Lemma processQueue_loop_progress cfg now q : ∀ s s',
  processQueue_loop cfg now q s = Some s' → progress_reported s' = progress_reported s.
Proof.
  induction q as [|task rest IH]; intros s s'; simpl.
  - by intros [= <-].
  - destruct (canSpawnWorker cfg s); [|by intros [= <-]].
    unfold executeTask.
    destruct (getOrCreateWorker cfg now (task_type task) (with_taskQueue rest s))
      as [[workerId s1]|] eqn:Hg; [|done].
    intros Hl. rewrite (IH _ _ Hl), executeTask_resume_progress.
    by rewrite (getOrCreateWorker_progress _ _ _ _ _ _ Hg).
Qed.

Lemma processQueue_begin_progress cfg now s suspended s' :
  processQueue_begin cfg now s = Some (suspended, s') →
  progress_reported s' = progress_reported s.
Proof.
  unfold processQueue_begin. destruct (taskQueue s) as [|task rest]; [by intros [= <- <-]|].
  destruct (canSpawnWorker cfg s); [|by intros [= <- <-]].
  destruct (getOrCreateWorker cfg now (task_type task) (with_taskQueue rest s))
    as [[workerId s1]|] eqn:Hg; [|done].
  intros [= <- <-]. by rewrite (getOrCreateWorker_progress _ _ _ _ _ _ Hg).
Qed.

Lemma processQueue_loop_inactive cfg now taskId q : ∀ s s',
  processQueue_loop cfg now q s = Some s' →
  Forall (λ t, task_id t ≠ taskId) q → activeTasks s !! taskId = None →
  activeTasks s' !! taskId = None.
Proof.
  induction q as [|task rest IH]; intros s s'; simpl.
  - by intros [= <-].
  - destruct (canSpawnWorker cfg s); [|by intros [= <-]].
    unfold executeTask.
    destruct (getOrCreateWorker cfg now (task_type task) (with_taskQueue rest s))
      as [[workerId s1]|] eqn:Hg; [|done].
    intros Hl Hq Ha. apply Forall_cons in Hq as [Ht Hq].
    destruct (getOrCreateWorker_data _ _ _ _ _ _ Hg) as (_ & Ha1 & _).
    eapply IH; [exact Hl|exact Hq|].
    rewrite executeTask_resume_activeTasks, Ha1. simpl.
    by rewrite lookup_insert_ne.
Qed.

Lemma processQueue_finished cfg now taskId s s' :
  processQueue cfg now s = Some s' →
  Forall (λ t, task_id t ≠ taskId) (taskQueue s) →
  activeTasks s !! taskId = None →
  finished taskId s s'.
Proof.
  intros Hp Hq Ha. split; [|by eapply processQueue_loop_progress].
  pose proof (processQueue_loop_inactive _ _ _ _ _ _ Hp Hq Ha) as Ha'.
  destruct (processQueue_fifo _ _ _ _ Hp) as (started & Hs & _).
  rewrite Hs in Hq. apply Forall_app in Hq as [_ Hq'].
  unfold getTaskStatus.
  assert (existsb (λ t, bool_decide (task_id t = taskId)) (taskQueue s') = false) as ->.
  { destruct (existsb _ _) eqn:He; [|done].
    apply existsb_exists in He as (t & Hin & Ht). apply bool_decide_eq_true in Ht.
    rewrite Forall_forall in Hq'. apply list_elem_of_In in Hin. by destruct (Hq' t Hin). }
  rewrite Ha'. rewrite bool_decide_eq_false_2; [done|]. by intros [x Hx].
Qed.

Lemma held_task_holds workerId t s w now :
  holds_task workerId t s →
  workers_get workerId (workers s) = Some w →
  held_task (set_lastActivity now w) (mutate workerId (set_lastActivity now) s) = Some t.
Proof.
  intros ([w' [Hw' Hc]] & Hne & Ha & _) Hw. rewrite Hw in Hw'. injection Hw' as <-.
  unfold held_task, truthy_string. simpl. rewrite Hc.
  by rewrite bool_decide_eq_false_2.
Qed.

Lemma progress_keeps cfg now later workerId t s taskId count total message :
  holds_task workerId t s →
  ∃ s', handleWorkerMessage cfg now later workerId
          (MsgProgress taskId count total message) s = Some s' ∧
        holds_task workerId t s' ∧
        results s' = results s ∧
        progress_reported s'
        = (progress_reported s ++ [(task_id t, count, total, message)])%list.
Proof.
  intros Hh. pose proof Hh as ([w [Hw Hc]] & Hne & Ha & Hq).
  unfold handleWorkerMessage. rewrite Hw. unfold handleProgress.
  rewrite (held_task_holds _ _ _ _ now Hh Hw). eexists. split; [done|].
  split; [|split; [done|by rewrite progress_reported_emit]].
  split; [|done]. exists (set_lastActivity now w). split; [|done]. simpl.
  rewrite workers_get_mutate; [|done]. by rewrite Hw.
Qed.

Lemma complete_finishes cfg now later workerId t s taskId result duration :
  holds_task workerId t s →
  ∃ s', handleWorkerMessage cfg now later workerId
          (MsgComplete taskId result duration) s = Some s' ∧
        results s' !! task_id t
        = Some {| r_taskId := task_id t; r_success := true; r_data := Some result;
                  r_error := None; r_duration := duration |} ∧
        finished (task_id t) s s'.
Proof.
  intros Hh. pose proof Hh as ([w [Hw Hc]] & Hne & Ha & Hq).
  unfold handleWorkerMessage. rewrite Hw. unfold handleComplete.
  rewrite (held_task_holds _ _ _ _ now Hh Hw).
  match goal with |- context [processQueue_begin cfg now ?x] =>
    set (s4 := x); destruct (processQueue_begin_settles cfg now s4)
      as [[suspended s5] Hb5] end.
  rewrite Hb5.
  destruct (processQueue_begin_data _ _ _ _ _ Hb5) as (Ha5 & Hr5 & Hq5).
  set (s6 := if enableAutoScaling cfg
             then considerScaleDown cfg later (set_lastActivity now w) s5 else s5).
  assert (taskQueue s6 = taskQueue s5 ∧ activeTasks s6 = activeTasks s5 ∧
          results s6 = results s5 ∧ progress_reported s6 = progress_reported s5)
    as (Hq6 & Ha6 & Hr6 & Hp6).
  { unfold s6. destruct (enableAutoScaling cfg); [|done].
    destruct (considerScaleDown_data cfg later (set_lastActivity now w) s5)
      as (Hq' & Ha' & Hr').
    split; [exact Hq'|]. split; [exact Ha'|]. split; [exact Hr'|].
    apply considerScaleDown_progress. }
  assert (progress_reported s5 = progress_reported s) as Hp5.
  { rewrite (processQueue_begin_progress _ _ _ _ _ Hb5). unfold s4.
    rewrite progress_reported_emit. by rewrite app_nil_r. }
  assert (results s4 !! task_id t
          = Some {| r_taskId := task_id t; r_success := true; r_data := Some result;
                    r_error := None; r_duration := duration |}) as Hres.
  { simpl. apply lookup_insert_eq. }
  assert (activeTasks s4 !! task_id t = None) as Hina.
  { simpl. apply lookup_delete_eq. }
  change (taskQueue s4) with (taskQueue s) in Hq5.
  destruct suspended as [[next wid]|].
  - rewrite Hq5 in Hq. apply Forall_cons in Hq as [Hn Hq].
    match goal with |- context [processQueue cfg now ?x] =>
      set (s7 := x); destruct (processQueue_settles cfg now s7) as [s' Hp] end.
    exists s'. split; [done|].
    assert (finished (task_id t) s7 s') as [Hst Hpr].
    { eapply processQueue_finished; [exact Hp| |].
      - unfold s7. by rewrite executeTask_resume_taskQueue, Hq6.
      - unfold s7. rewrite executeTask_resume_activeTasks, Ha6, Ha5.
        by rewrite lookup_insert_ne. }
    split; [|split; [exact Hst|]].
    + rewrite (processQueue_results _ _ _ _ Hp). unfold s7.
      by rewrite executeTask_resume_results, Hr6, Hr5.
    + rewrite Hpr. unfold s7. by rewrite executeTask_resume_progress, Hp6, Hp5.
  - exists s6. split; [done|]. split; [by rewrite Hr6, Hr5|]. split.
    + unfold getTaskStatus. rewrite Hq6, Hq5, Ha6, Ha5, Hina.
      assert (existsb (λ q, bool_decide (task_id q = task_id t)) (taskQueue s) = false)
        as ->.
      { destruct (existsb _ _) eqn:He; [|done].
        apply existsb_exists in He as (q & Hin & Hqt). apply bool_decide_eq_true in Hqt.
        rewrite Forall_forall in Hq. apply list_elem_of_In in Hin.
        by destruct (Hq q Hin). }
      rewrite bool_decide_eq_false_2; [done|]. by intros [x Hx].
    + by rewrite Hp6, Hp5.
Qed.

Lemma error_finishes cfg now later workerId t s taskId message :
  holds_task workerId t s → no_retry t →
  ∃ s', handleWorkerMessage cfg now later workerId (MsgError taskId message) s = Some s' ∧
        results s' !! task_id t
        = Some {| r_taskId := task_id t; r_success := false; r_data := None;
                  r_error := Some message; r_duration := 0 |} ∧
        finished (task_id t) s s'.
Proof.
  intros Hh Hno. pose proof Hh as ([w [Hw Hc]] & Hne & Ha & Hq).
  unfold handleWorkerMessage. rewrite Hw. unfold handleTaskError.
  rewrite (held_task_holds _ _ _ _ now Hh Hw).
  match goal with |- context [processQueue cfg now ?x] =>
    set (s1 := x); destruct (processQueue_settles cfg now s1) as [s' Hp] end.
  exists s'. split; [done|].
  assert (taskQueue s1 = taskQueue s) as Hq1.
  { unfold s1. by rewrite failTask_no_retry. }
  assert (activeTasks s1 = delete (task_id t) (activeTasks s) ∧
          progress_reported s1 = progress_reported s) as [Ha1 Hp1].
  { unfold s1, failTask. unfold no_retry in Hno. unfold retry_wanted. rewrite Hno. simpl.
    split; [done|]. rewrite progress_reported_emit. by rewrite app_nil_r. }
  assert (finished (task_id t) s1 s') as [Hst Hpr].
  { eapply processQueue_finished; [exact Hp|by rewrite Hq1|].
    rewrite Ha1. apply lookup_delete_eq. }
  split; [|split; [exact Hst|by rewrite Hpr]].
  rewrite (processQueue_results _ _ _ _ Hp). unfold s1. rewrite failTask_results.
  apply lookup_insert_eq.
Qed.

Lemma getOrCreateWorker_present cfg now ty s workerId s1 :
  getOrCreateWorker cfg now ty s = Some (workerId, s1) →
  workerId ∈ map w_id (workers s1).
Proof.
  unfold getOrCreateWorker.
  destruct (find _ (workers s)) as [w|] eqn:Hf1.
  { intros H. injection H as <- <-. apply find_some in Hf1 as [Hin _].
    apply list_elem_of_fmap. exists w. split; [done|by apply list_elem_of_In]. }
  destruct (find (λ w, bool_decide (w_status w = WsIdle)) (workers s)) as [w|] eqn:Hf2.
  { intros H. injection H as <- <-. apply find_some in Hf2 as [Hin _]. simpl.
    rewrite workers_mutate_ids; [|constructor].
    apply list_elem_of_fmap. exists w. split; [done|by apply list_elem_of_In]. }
  destruct (_ <? _)%nat; [|done]. unfold createWorker. intros H. injection H as <- <-.
  simpl. apply list_elem_of_fmap. eexists. split; [|apply workers_set_elem]. done.
Qed.

(** A task submitted while nothing is queued and the pool has room is
    started at once. *)
Lemma submitTask_starts cfg now rnd task s :
  taskQueue s = [] → canSpawnWorker cfg s = true → (0 < taskQueueSize cfg)%nat →
  ∃ s1 workerId,
    submitTask cfg now rnd task s = Some (Resolved (make_taskId now rnd), s1) ∧
    holds_task workerId (submitted_task now rnd task) s1 ∧
    taskQueue s1 = [] ∧
    postExecute workerId (submitted_task now rnd task) ∈ emitted s1 ∧
    results s1 = results s ∧
    progress_reported s1 = progress_reported s.
Proof.
  intros Hq Hc Hsize. unfold submitTask. rewrite Hq. simpl.
  destruct (Nat.leb_spec (taskQueueSize cfg) 0) as [Hle|_]; [lia|].
  change (mkTask (make_taskId now rnd) (task_type task) (task_description task)
            (task_priority task) (task_config task) (task_timeout task)
            (task_retryOnError task) (task_maxRetries task))
    with (submitted_task now rnd task).
  set (t := submitted_task now rnd task).
  unfold processQueue. simpl.
  assert (canSpawnWorker cfg (emit (taskQueued t) (with_taskQueue [t] s)) = true) as ->
    by exact Hc.
  unfold executeTask.
  match goal with |- context [getOrCreateWorker cfg now ?ty ?x] =>
    set (s0 := x);
    destruct (getOrCreateWorker_settles cfg now ty s0 Hc) as [[workerId sg] Hg] end.
  rewrite Hg. eexists _, workerId. split; [reflexivity|].
  destruct (getOrCreateWorker_data _ _ _ _ _ _ Hg) as (Hqg & Hag & Hrg).
  pose proof (getOrCreateWorker_present _ _ _ _ _ _ Hg) as Hin.
  apply workers_get_is_Some in Hin as [w0 Hw0].
  split; [|split; [done|split; [|split]]].
  - split; [|split; [apply make_taskId_nonempty|split]].
    + eexists. simpl. rewrite executeTask_resume_workers.
      rewrite workers_get_mutate, Hw0; [|done]. simpl. split; reflexivity.
    + simpl. rewrite executeTask_resume_activeTasks. apply lookup_insert_eq.
    + by apply Forall_nil.
  - simpl. unfold executeTask_resume.
    destruct (task_timeout t) as [ms|]; [destruct (ms =? 0)|]; simpl;
      rewrite ?elem_of_app, ?list_elem_of_singleton; auto.
  - simpl. by rewrite executeTask_resume_results, Hrg.
  - change (progress_reported (executeTask_resume now t workerId sg)
            = progress_reported s).
    rewrite executeTask_resume_progress, (getOrCreateWorker_progress _ _ _ _ _ _ Hg).
    unfold s0. change (progress_reported (emit (taskQueued t) s) = progress_reported s).
    rewrite progress_reported_emit. by rewrite app_nil_r.
Qed.

(** The messages that a worker posts for the task it holds, delivered to the
    orchestrator. *)
Lemma worker_messages_recorded cfg workerId t h progress : ∀ s inputs,
  holds_task workerId t s → ends_task t h →
  delivers workerId
    (map (λ p, MsgProgress (task_id t) p.1.1 p.1.2 p.2) progress
     ++ [match h_outcome h with
         | inl result => MsgComplete (task_id t) result (h_elapsed h)
         | inr message => MsgError (task_id t) message
         end])%list inputs →
  ∃ s', run cfg s inputs = Some s' ∧
        getResult s' (task_id t) = Some (result_of (task_id t) h) ∧
        getTaskStatus s' (task_id t)
        = (if r_success (result_of (task_id t) h) then completed else error) ∧
        progress_reported s'
        = (progress_reported s
           ++ map (λ p, (task_id t, p.1.1, p.1.2, p.2)) progress)%list.
Proof.
  induction progress as [|p rest IH]; intros s inputs Hh He Hd; simpl in Hd.
  - apply Forall2_cons_inv_r in Hd as ([now i] & inputs' & [later Hi] & Hnil & ->).
    apply Forall2_nil_inv_r in Hnil as ->. simpl in Hi. subst i. simpl.
    unfold result_of, getResult.
    destruct (h_outcome h) as [result|message] eqn:Ho.
    + destruct (complete_finishes cfg now later workerId t s (task_id t) result
                  (h_elapsed h) Hh) as (s' & -> & Hr & Hst & Hp).
      exists s'. split; [done|]. split; [done|]. split; [|by rewrite app_nil_r].
      by rewrite Hst, Hr.
    + destruct He as [[result Hres]|Hno]; [congruence|].
      destruct (error_finishes cfg now later workerId t s (task_id t) message Hh Hno)
        as (s' & -> & Hr & Hst & Hp).
      exists s'. split; [done|]. split; [done|]. split; [|by rewrite app_nil_r].
      by rewrite Hst, Hr.
  - apply Forall2_cons_inv_r in Hd as ([now i] & inputs' & [later Hi] & Hd & ->).
    simpl in Hi. subst i. simpl.
    destruct (progress_keeps cfg now later workerId t s (task_id t) p.1.1 p.1.2 p.2 Hh)
      as (s1 & -> & Hh1 & Hr1 & Hp1).
    destruct (IH s1 inputs' Hh1 He Hd) as (s' & Hrun & Hres & Hst & Hp).
    exists s'. split; [done|]. split; [done|]. split; [done|].
    rewrite Hp, Hp1. by rewrite <- app_assoc.
Qed.

(** X10. A task submitted while nothing is queued and the pool has room is
    started at once: [submitTask] resolves, the task is running and its
    [execute] message has been posted to a worker.  When that worker then
    posts what [executeTask] of parallel-worker.ts posts for the task (the
    progress "Starting...", the progress of the handler, and the completion
    or the error) and the handler returns or the task asks for no retry,
    the orchestrator forwards every progress report in order under the id of
    the task, stores the worker's result (with its duration) or the error
    message (with duration 0), and reports the task as completed or as
    error. *)
Theorem submitted_task_runs_to_its_result (cfg : Config) (now : Z) (rnd : string)
    (task : WorkerTask) (s : State) (h : HandlerRun) :
  taskQueue s = [] → canSpawnWorker cfg s = true → (0 < taskQueueSize cfg)%nat →
  ends_task task h →
  let taskId := make_taskId now rnd in
  ∃ s1 workerId,
    submitTask cfg now rnd task s = Some (Resolved taskId, s1) ∧
    getTaskStatus s1 taskId = running ∧
    postExecute workerId (submitted_task now rnd task) ∈ emitted s1 ∧
    ∀ inputs,
      delivers workerId (worker_executeTask taskId h) inputs →
      ∃ s2, run cfg s1 inputs = Some s2 ∧
            getResult s2 taskId = Some (result_of taskId h) ∧
            getTaskStatus s2 taskId
            = (if r_success (result_of taskId h) then completed else error) ∧
            progress_reported s2
            = (progress_reported s
               ++ (taskId, 0, 100, Some "Starting...")
               :: map (λ p, (taskId, p.1.1, p.1.2, p.2)) (h_progress h))%list.
Proof.
  intros Hq Hc Hsize He taskId.
  destruct (submitTask_starts cfg now rnd task s Hq Hc Hsize)
    as (s1 & workerId & Hsub & Hh & Hq1 & Hpost & Hr1 & Hp1).
  exists s1, workerId. split; [exact Hsub|]. split; [|split; [exact Hpost|]].
  - destruct Hh as (_ & _ & Ha & _). simpl in Ha. unfold getTaskStatus, taskId.
    rewrite Hq1. simpl. rewrite bool_decide_eq_true_2; [done|]. by rewrite Ha.
  - intros inputs Hd.
    destruct (worker_messages_recorded cfg workerId (submitted_task now rnd task) h
                ((0, 100, Some "Starting...") :: h_progress h) s1 inputs Hh He Hd)
      as (s2 & Hrun & Hres & Hst & Hp).
    exists s2. split; [exact Hrun|]. split; [exact Hres|]. split; [exact Hst|].
    by rewrite Hp, Hp1.
Qed.

(** X10 at an analysis that reports three steps and returns after 1500 ms. *)
Lemma submitted_task_runs_to_its_result_witness :
  let h := {| h_progress := [(0, 100, Some "Analyzing data...");
                             (50, 100, Some "Computing statistics...");
                             (100, 100, Some "Analysis complete")];
              h_outcome := inl "{}"; h_elapsed := 1500 |} in
  ∃ s1 workerId s2,
    submitTask pool_of_two 1000 "a" (plain_task "A" 5) initial
    = Some (Resolved "task_1000_a", s1) ∧
    run pool_of_two s1
      (map (λ m, (2000, Message workerId m 2000)) (worker_executeTask "task_1000_a" h))
    = Some s2 ∧
    getTaskStatus s2 "task_1000_a" = completed ∧
    length (progress_reported s2) = 4%nat.
Proof.
  intros h.
  destruct (submitted_task_runs_to_its_result pool_of_two 1000 "a" (plain_task "A" 5)
              initial h) as (s1 & workerId & Hsub & _ & _ & Hrun).
  - reflexivity.
  - reflexivity.
  - simpl. lia.
  - left. by exists "{}".
  - destruct (Hrun (map (λ m, (2000, Message workerId m 2000))
                      (worker_executeTask "task_1000_a" h)))
      as (s2 & Hr2 & _ & Hst & Hp).
    + unfold delivers. apply Forall2_fmap_l, Forall_Forall2_diag, Forall_forall.
      intros m _. by exists 2000.
    + exists s1, workerId, s2. split; [exact Hsub|]. split; [exact Hr2|].
      split; [exact Hst|]. by rewrite Hp.
Defined.

(** ** A timeout and the exit that follows it *)

Lemma workers_delete_mutate workerId f ws :
  (∀ w, w_id (f w) = w_id w) →
  workers_delete workerId (workers_mutate workerId f ws) = workers_delete workerId ws.
Proof.
  intros Hf. unfold workers_delete, workers_mutate.
  induction ws as [|w rest IH]; simpl; [done|].
  rewrite !filter_cons.
  destruct (decide (w_id w = workerId)) as [Heq|Hne].
  - destruct (decide (w_id (f w) ≠ workerId)) as [Hn|_]; [by rewrite Hf in Hn|].
    destruct (decide (w_id w ≠ workerId)) as [Hn|_]; [done|]. exact IH.
  - destruct (decide (w_id w ≠ workerId)) as [_|Hn]; [|done]. by rewrite IH.
Qed.

(** X11. The worker thread answers [terminate] by exiting (with code 0).
    When the timer of a running task fires and the thread of the worker that
    held it then exits, the worker is out of the pool, the task is reported
    as [error] with the result "Task terminated: timeout", and neither of the
    two callbacks has started a queued task: the queue is as it was. *)
Theorem timed_out_worker_exits (cfg : Config) (s : State) (taskId : string)
    (worker : WorkerInstance) (now later code : Z) :
  getTaskStatus s taskId = running →
  find (λ w, bool_decide (w_currentTask w = Some taskId)) (workers s) = Some worker →
  workers_get (w_id worker) (workers s) = Some worker →
  ∃ s', run cfg s [(now, TimerFired taskId); (later, WorkerExit (w_id worker) code)]
        = Some s' ∧
        workers s' = workers_delete (w_id worker) (workers s) ∧
        workers_get (w_id worker) (workers s') = None ∧
        getTaskStatus s' taskId = error ∧
        getResult s' taskId
        = Some {| r_taskId := taskId; r_success := false; r_data := None;
                  r_error := Some "Task terminated: timeout"; r_duration := 0 |} ∧
        taskQueue s' = taskQueue s ∧
        dispatched s' = dispatched s.
Proof.
  intros Hrun Hfind Hget.
  destruct (getTaskStatus_running _ _ Hrun) as [Hq [task Ha]].
  simpl. unfold timerFired, terminateTask. rewrite Ha, Hfind.
  unfold handleWorkerExit. simpl.
  rewrite workers_get_mutate, Hget; [|done]. simpl.
  eexists. split; [reflexivity|]. simpl.
  split; [by apply workers_delete_mutate|].
  split; [apply workers_get_delete|].
  split; [|split; [apply lookup_insert_eq|split; [done|]]].
  - unfold getTaskStatus. simpl. rewrite Hq, lookup_delete_eq, lookup_insert_eq.
    rewrite bool_decide_eq_false_2; [done|]. by intros [x Hx].
  - unfold dispatched. simpl. rewrite !omap_app. simpl. by rewrite !app_nil_r.
Qed.

(** X11 at a task with a timeout of 100 ms, running on worker 1. *)
Lemma timed_out_worker_exits_witness :
  let s := after pool_of_one
             [(1000, Submit (with_timeout 100 (plain_task "T" 1)) "t")] in
  ∃ s', run pool_of_one s [(1100, TimerFired "task_1000_t"); (1101, WorkerExit 1 0)]
        = Some s' ∧
        workers s' = [] ∧ getTaskStatus s' "task_1000_t" = error.
Proof.
  intros s.
  destruct (timed_out_worker_exits pool_of_one s "task_1000_t"
              {| w_id := 1; w_type := Monitor; w_status := WsRunning;
                 w_currentTask := Some "task_1000_t"; w_tasksCompleted := 0;
                 w_errors := 0; w_startTime := 1000; w_lastActivity := 1000 |}
              1100 1101 0) as (s' & Hrun & Hw & _ & Hst & _);
    [vm_compute; reflexivity..|].
  exists s'. split; [exact Hrun|]. split; [|exact Hst]. by rewrite Hw.
Defined.

(** ** Which tasks are started *)



Lemma considerScaleDown_dispatched cfg later worker s :
  dispatched (considerScaleDown cfg later worker s) = dispatched s.
Proof.
  unfold considerScaleDown, terminateWorker.
  destruct (_ <=? _)%nat; [done|]. destruct (_ <? _)%nat; [done|].
  destruct (_ <? _); [|done]. destruct (workers_get _ _); [|done].
  rewrite dispatched_emit. by rewrite app_nil_r.
Qed.

Lemma processQueue_begin_dispatched cfg now s suspended s' :
  processQueue_begin cfg now s = Some (suspended, s') → dispatched s' = dispatched s.
Proof.
  unfold processQueue_begin. destruct (taskQueue s) as [|task rest]; [by intros [= <- <-]|].
  destruct (canSpawnWorker cfg s); [|by intros [= <- <-]].
  destruct (getOrCreateWorker cfg now (task_type task) (with_taskQueue rest s))
    as [[workerId s1]|] eqn:Hg; [|done].
  intros [= <- <-]. by rewrite (getOrCreateWorker_dispatched _ _ _ _ _ _ Hg).
Qed.

Section StartedTasks.

Variable cfg : Config.
Variable P : WorkerTask → Prop.

Lemma processQueue_started now s s' :
  processQueue cfg now s = Some s' →
  Forall P (taskQueue s) → Forall P (dispatched s) → Forall P (dispatched s').
Proof.
  intros Hp Hq Hd. destruct (processQueue_fifo _ _ _ _ Hp) as (started & Hs & ->).
  rewrite Hs in Hq. apply Forall_app in Hq as [Hst _]. by apply Forall_app.
Qed.

Lemma handleTaskError_started now worker message s s' :
  handleTaskError cfg now worker message s = Some s' →
  tasks_satisfy P s → Forall P (dispatched s) → Forall P (dispatched s').
Proof.
  unfold handleTaskError. destruct (held_task worker s) as [task|] eqn:Hh;
    [|by intros [= <-]].
  intros Hp Ht Hd.
  destruct (failTask_tasks P worker message task s Hh Ht) as [Hq1 _].
  eapply processQueue_started; [exact Hp|exact Hq1|].
  unfold failTask. destruct (retry_wanted _ _);
    change (Forall P (dispatched (emit (taskError task message) s)));
    rewrite dispatched_emit; by rewrite app_nil_r.
Qed.

Lemma handleComplete_started now later worker result duration s s' :
  handleComplete cfg now later worker result duration s = Some s' →
  tasks_satisfy P s → Forall P (dispatched s) → Forall P (dispatched s').
Proof.
  unfold handleComplete. destruct (held_task worker s) as [task|]; [|by intros [= <-]].
  match goal with |- context [processQueue_begin cfg now ?x] =>
    set (s4 := x); destruct (processQueue_begin cfg now s4) as [[suspended s5]|] eqn:Hb5 end;
    [|done].
  intros H [Hq _] Hd.
  assert (dispatched s4 = dispatched s) as Hd4.
  { unfold s4. rewrite dispatched_emit. by rewrite app_nil_r. }
  pose proof (processQueue_begin_dispatched _ _ _ _ _ Hb5) as Hd5.
  destruct (processQueue_begin_data _ _ _ _ _ Hb5) as (_ & _ & Hq5).
  change (taskQueue s4) with (taskQueue s) in Hq5.
  set (s6 := if enableAutoScaling cfg then considerScaleDown cfg later worker s5 else s5)
    in H.
  assert (taskQueue s6 = taskQueue s5 ∧ dispatched s6 = dispatched s5) as [Hq6 Hd6].
  { unfold s6. destruct (enableAutoScaling cfg); [|done].
    split; [by destruct (considerScaleDown_data cfg later worker s5) as (-> & _)|].
    apply considerScaleDown_dispatched. }
  destruct suspended as [[next workerId]|].
  - rewrite Hq5 in Hq. apply Forall_cons in Hq as [Hn Hq].
    eapply processQueue_started; [exact H| |].
    + by rewrite executeTask_resume_taskQueue, Hq6.
    + rewrite executeTask_resume_dispatched, Hd6, Hd5, Hd4.
      apply Forall_app. split; [done|by apply Forall_singleton].
  - injection H as <-. by rewrite Hd6, Hd5, Hd4.
Qed.

Lemma step_started s now i s' :
  step cfg s now i = Some s' →
  match i with Submit task rnd => P (submitted_task now rnd task) | _ => True end →
  tasks_satisfy P s → Forall P (dispatched s) → Forall P (dispatched s').
Proof.
  destruct i as [task rnd|workerId m later|workerId message|workerId code|taskId]; simpl.
  - unfold submitTask. destruct (_ <=? _)%nat; [by intros [= <-]|].
    match goal with |- context [processQueue cfg now ?x] =>
      destruct (processQueue cfg now x) as [s2|] eqn:Hp end; [|done].
    intros [= <-] Hnew [Hq _] Hd. eapply processQueue_started; [exact Hp| |].
    + simpl. apply Forall_app. split; [done|by apply Forall_singleton].
    + rewrite dispatched_emit. by rewrite app_nil_r.
  - unfold handleWorkerMessage.
    destruct (workers_get workerId (workers s)) as [w|]; [|by intros [= <-]].
    destruct m as [tid c t msg|tid result duration|tid msg|ty].
    + intros [= <-] _ _ Hd. unfold handleProgress.
      destruct (held_task _ _); [|done]. rewrite dispatched_emit. by rewrite app_nil_r.
    + intros H _ Ht Hd. eapply handleComplete_started; [exact H|exact Ht|exact Hd].
    + intros H _ Ht Hd. eapply handleTaskError_started; [exact H|exact Ht|exact Hd].
    + by intros [= <-].
  - unfold handleWorkerError.
    destruct (workers_get workerId (workers s)) as [w|]; [|by intros [= <-]].
    destruct (truthy_string _).
    + intros H _ Ht Hd. eapply handleTaskError_started; [exact H|exact Ht|].
      rewrite dispatched_emit. by rewrite app_nil_r.
    + intros [= <-] _ _ Hd. rewrite dispatched_emit. by rewrite app_nil_r.
  - unfold handleWorkerExit.
    destruct (workers_get workerId (workers s)) as [w|]; [|by intros [= <-]].
    destruct (truthy_string _).
    + intros H _ Ht Hd. eapply handleTaskError_started; [exact H|exact Ht|].
      rewrite dispatched_emit. by rewrite app_nil_r.
    + intros [= <-] _ _ Hd. rewrite dispatched_emit. by rewrite app_nil_r.
  - intros [= <-] _ _ Hd. unfold timerFired, terminateTask.
    destruct (activeTasks s !! taskId); [|done].
    destruct (find _ (workers s)) as [holder|]; [|done].
    rewrite dispatched_emit, app_nil_r.
    change (Forall P (dispatched (emit (postTerminate (w_id holder) taskId) s))).
    rewrite dispatched_emit. by rewrite app_nil_r.
Qed.

End StartedTasks.

(** X13. The orchestrator starts only tasks that were submitted, and starts
    them as [submitTask] made them: every task of a [taskStarted] event is
    the argument of a call of [submitTask] of the run with its identifier
    set, all other fields (type, priority, config, timeout, retry settings)
    unchanged. *)
Theorem started_tasks_were_submitted (cfg : Config) (l : list (Z * Input)) :
  ∃ s, run cfg initial l = Some s ∧
       Forall (λ t, ∃ now task rnd,
                 (now, Submit task rnd) ∈ l ∧ t = submitted_task now rnd task)
              (dispatched s).
Proof.
  exists (after cfg l). split; [apply after_run|].
  set (P := λ t, ∃ now task rnd,
                 (now, Submit task rnd) ∈ l ∧ t = submitted_task now rnd task).
  assert (∀ l0 s0 s, (∀ i, i ∈ l0 → i ∈ l) →
                     tasks_satisfy P s0 → Forall P (dispatched s0) →
                     run cfg s0 l0 = Some s → Forall P (dispatched s)) as Hgen.
  { induction l0 as [|[now i] l0 IH]; intros s0 s Hsub Ht Hd; simpl.
    - by intros [= <-].
    - destruct (step cfg s0 now i) as [s1|] eqn:Hs; [|done].
      assert (match i with
              | Submit task rnd => P (submitted_task now rnd task)
              | _ => True
              end) as Hi.
      { destruct i; try done. eexists _, _, _. split; [|done]. apply Hsub. by left. }
      apply IH.
      + intros j Hj. apply Hsub. by right.
      + eapply step_tasks; [exact Hs|exact Hi|exact Ht].
      + eapply step_started; [exact Hs|exact Hi|exact Ht|exact Hd]. }
  apply (Hgen l initial); [done| |by apply Forall_nil|apply after_run].
  split; [by apply Forall_nil|]. simpl. intros k t. by rewrite lookup_empty.
Qed.

(** X5 at a pool whose one worker is idle with another type: the worker is
    given the new type and no worker is created. *)
Lemma getOrCreateWorker_choice_witness :
  let w := {| w_id := 1; w_type := Monitor; w_status := WsIdle; w_currentTask := None;
              w_tasksCompleted := 1; w_errors := 0; w_startTime := 0;
              w_lastActivity := 0 |} in
  let s := with_nextWorkerId 2 (with_workers [w] initial) in
  ∃ workerId s1,
    getOrCreateWorker pool_of_two 5 Research s = Some (workerId, s1) ∧
    map w_id (workers s1) = [1%nat] ∧ nextWorkerId s1 = 2%nat.
Proof.
  intros w s.
  pose proof (getOrCreateWorker_choice pool_of_two 5 Research s) as H.
  destruct (getOrCreateWorker pool_of_two 5 Research s) as [[workerId s1]|] eqn:Hg.
  - destruct H as (_ & H & _). destruct H as (_ & Hids & Hnext & _).
    + exists w. split; [by apply list_elem_of_singleton|done].
    + by exists workerId, s1.
  - vm_compute in Hg. discriminate Hg.
Defined.

(** ** Retries, over the whole callback *)



(** ** Timeouts, in the states the orchestrator reaches *)

Lemma reached_ids_fresh cfg l s :
  run cfg initial l = Some s → ids_fresh (workers s) (nextWorkerId s).
Proof.
  intros Hrun.
  apply (run_inv cfg ids_fresh) with (l := l) (s := initial); [| | |exact Hrun|].
  - intros. by apply ids_fresh_update.
  - intros. by apply ids_fresh_delete.
  - intros. by apply ids_fresh_create.
  - split; [apply NoDup_nil_2|by apply Forall_nil].
Qed.

(** With distinct identifiers, the map gives every worker of the pool for
    its own identifier. *)
Lemma workers_get_of_found (f : WorkerInstance → bool) ws w :
  NoDup (map w_id ws) → find f ws = Some w → workers_get (w_id w) ws = Some w.
Proof.
  unfold workers_get. induction ws as [|x rest IH]; simpl; [done|].
  rewrite NoDup_cons. intros [Hx Hrest] Hf.
  destruct (f x).
  - injection Hf as ->. by rewrite bool_decide_eq_true_2.
  - assert (w_id x ≠ w_id w) as Hne.
    { intros Heq. apply Hx. rewrite Heq. apply list_elem_of_fmap. exists w.
      split; [done|]. apply find_some in Hf as [Hin _]. by apply list_elem_of_In. }
    rewrite bool_decide_eq_false_2; [|done]. by apply IH.
Qed.

(** When no worker of the pool holds the task, the timer changes nothing. *)
Lemma timerFired_without_holder s taskId :
  find (λ w, bool_decide (w_currentTask w = Some taskId)) (workers s) = None →
  timerFired taskId s = s.
Proof.
  intros Hf. unfold timerFired, terminateTask.
  destruct (activeTasks s !! taskId); [|done]. by rewrite Hf.
Qed.

(** C6, amended.  In every state reached from the start: when the timer of
    a running task fires and a worker of the pool holds the task,
    [terminateTask] posts [terminate] to that worker, stores a failed result
    with the message "Task terminated: timeout" and duration 0, and sets the
    worker idle without a current task.  [getTaskStatus] then reports the
    task as [error], the status of every failed task. *)
Theorem timeout_is_reported_as_error (cfg : Config) (l : list (Z * Input))
    (s : State) (taskId : string) (worker : WorkerInstance) :
  run cfg initial l = Some s →
  getTaskStatus s taskId = running →
  find (λ w, bool_decide (w_currentTask w = Some taskId)) (workers s) = Some worker →
  let s' := timerFired taskId s in
  getTaskStatus s' taskId = error ∧
  getResult s' taskId
  = Some {| r_taskId := taskId; r_success := false; r_data := None;
            r_error := Some "Task terminated: timeout"; r_duration := 0 |} ∧
  workers_get (w_id worker) (workers s')
  = Some (set_status WsIdle (set_currentTask None worker)) ∧
  emitted s'
  = (emitted s ++ [postTerminate (w_id worker) taskId;
                   taskTerminated taskId "timeout"])%list.
Proof.
  intros Hreach Hrun Hfind.
  destruct (reached_ids_fresh _ _ _ Hreach) as [Hnd _].
  apply timerFired_of_held_task; [exact Hrun|exact Hfind|].
  by apply (workers_get_of_found _ _ _ Hnd Hfind).
Qed.

(** The amended C6 at a task with a timeout of 100 ms, running on worker 1. *)
Lemma timeout_is_reported_as_error_witness :
  let l := [(1000, Submit (with_timeout 100 (plain_task "T" 1)) "t")] in
  let s := after pool_of_one l in
  getTaskStatus s "task_1000_t" = running ∧
  getTaskStatus (timerFired "task_1000_t" s) "task_1000_t" = error ∧
  (w_status <$> workers_get 1 (workers (timerFired "task_1000_t" s))) = Some WsIdle.
Proof.
  intros l s. split; [vm_compute; reflexivity|].
  destruct (timeout_is_reported_as_error pool_of_one l s "task_1000_t"
              {| w_id := 1; w_type := Monitor; w_status := WsRunning;
                 w_currentTask := Some "task_1000_t"; w_tasksCompleted := 0;
                 w_errors := 0; w_startTime := 1000; w_lastActivity := 1000 |})
    as (Hst & _ & Hw & _).
  - apply after_run.
  - vm_compute. reflexivity.
  - vm_compute. reflexivity.
  - split; [exact Hst|]. simpl in Hw. by rewrite Hw.
Defined.
